(** * The diff viewer of the admin review panel

    A shallow embedding of [DiffViewer]
    (frontend/components/AdminReviewPanel.tsx, lines 383-482): the parsing of
    a unified-diff patch into rendered rows carrying old/new line numbers, and
    the click handler that turns a row into the line picked for an inline
    comment.  Around it: the selected line of [DiffFileBlock] and the
    prefilled Line field of [InlineCommentForm], what the two feedback forms
    post, the comments listed under each file, and the countdown text of the
    candidate's start page.

    Modelling choices.
    - A JavaScript string is the list of its UTF-16 code units ([N]).
    - The two line counters are JavaScript numbers, that is doubles.  The
      only values they take are non-negative integers that a double can hold,
      and [Infinity]; they are kept in [N], the number 2^1024 (which no
      double holds) standing for [Infinity].  What [parseInt] returns and
      what [+= 1] gives are rounded to the nearest double, ties to even
      ([to_double]); below 2^53 nothing is rounded.
    - A rendered JSX row keeps what the specification talks about: its React
      key, the kind of line, the two number cells, the sign cell, the text
      of the button; class names are left out. *)

From Stdlib Require Import String Ascii List NArith ZArith Bool Arith Lia DecimalN.
Import ListNotations.

Open Scope N_scope.

(** ** JavaScript strings *)

Module JS.

Definition char := N.
Definition jsstring := list char.

(** A literal of the source, as code units. *)
Definition str (s : string) : jsstring :=
  map N_of_ascii (list_ascii_of_string s).

(** [s.startsWith(p)] *)
Fixpoint startsWith (s p : jsstring) {struct p} : bool :=
  match p, s with
  | [], _ => true
  | _ :: _, [] => false
  | a :: p', b :: s' => (a =? b) && startsWith s' p'
  end.

(** [s.slice(1)] *)
Definition slice1 (s : jsstring) : jsstring := tl s.

(** [s[0] || " "]: the first code unit as a one-unit string, a blank for the
    empty string. *)
Definition first_or_blank (s : jsstring) : jsstring :=
  match s with
  | [] => str " "
  | c :: _ => [c]
  end.

(** [s.split("\n")]: the pieces between line feeds (code unit 10); the empty
    string gives one empty piece. *)
Fixpoint split_nl (s : jsstring) : list jsstring :=
  match s with
  | [] => [[]]
  | c :: t =>
      if c =? 10 then [] :: split_nl t
      else match split_nl t with
           | piece :: pieces => (c :: piece) :: pieces
           | [] => [[c]]
           end
  end.

(** The class [[0-9]]. *)
Definition is_digit (c : char) : bool := (48 <=? c) && (c <=? 57).

(** The class [\s] of ECMAScript: tab, LF, VT, FF, CR, space, NBSP, and the
    Unicode space separators, line/paragraph separators and BOM. *)
Definition is_space (c : char) : bool :=
  ((9 <=? c) && (c <=? 13)) || (c =? 32) || (c =? 160) || (c =? 5760)
  || ((8192 <=? c) && (c <=? 8202)) || (c =? 8232) || (c =? 8233)
  || (c =? 8239) || (c =? 8287) || (c =? 12288) || (c =? 65279).

(** The integer a string of decimal digits writes. *)
Definition decimal_value (ds : jsstring) : N :=
  fold_left (fun acc d => 10 * acc + (d - 48)) ds 0.

(** [Infinity], as a value of [N]: the least power of two that no double
    holds. *)
Definition Infinity : N := 2 ^ 1024.

(** The Number value of a non-negative integer [n]: the nearest double, a
    tie going to the even significand, and [Infinity] when that rounding
    leaves the range of the doubles.  Up to 2^53 the integer itself; above,
    [e] is the exponent of the last place (the doubles near [n] are the
    multiples of [2^e]), [q] the 53-bit significand cut short and [r] what
    was cut. *)
Definition to_double (n : N) : N :=
  if n <? 2 ^ 53 then n
  else
    let e := N.log2 n - 52 in
    let q := n / 2 ^ e in
    let r := n mod 2 ^ e in
    let half := 2 ^ (e - 1) in
    let q' := if r <? half then q
              else if half <? r then q + 1
              else if N.even q then q else q + 1 in
    if 2 ^ 1024 <=? q' * 2 ^ e then Infinity else q' * 2 ^ e.

(** [parseInt(ds, 10)] on a string of decimal digits (what a [[0-9]+] group
    captures): the Number value of the integer it writes.  (Past 20
    significant digits the language lets an engine round the later digits
    first; engines do not.) *)
Definition parseInt (ds : jsstring) : N := to_double (decimal_value ds).

(** [x += 1] on a counter: the sum, as a Number value. *)
Definition add1 (x : N) : N := to_double (x + 1).

End JS.

Import JS.

(** ** The hunk-header pattern

    [/@@\s-([0-9]+)(?:,[0-9]+)?\s\+([0-9]+)(?:,[0-9]+)?\s@@/]

    The pattern is matched piece by piece, each piece returning the rest of
    the input.  A digit run is always followed in the pattern by [,] or [\s],
    and the optional count by [\s]; neither is a digit, and [\s] excludes
    [,].  So giving back part of a greedy run can never help, and the greedy
    left-to-right reading below finds the match of the backtracking matcher
    whenever there is one ([hunk_at_iff] proves it against the language of
    the pattern, [hunk_shape]). *)

Module Pattern.

Definition bind {A B} (o : option A) (k : A -> option B) : option B :=
  match o with
  | Some a => k a
  | None => None
  end.

Notation "x <- e ;; k" := (bind e (fun x => k))
  (at level 61, e at next level, right associativity).

(** A literal piece of the pattern. *)
Fixpoint lit (p s : jsstring) {struct p} : option jsstring :=
  match p, s with
  | [], _ => Some s
  | _ :: _, [] => None
  | a :: p', b :: s' => if a =? b then lit p' s' else None
  end.

(** [\s] *)
Definition space1 (s : jsstring) : option jsstring :=
  match s with
  | c :: s' => if is_space c then Some s' else None
  | [] => None
  end.

(** The longest run of digits at the head, and what follows it. *)
Fixpoint span_digits (s : jsstring) : jsstring * jsstring :=
  match s with
  | c :: s' =>
      if is_digit c
      then let '(ds, rest) := span_digits s' in (c :: ds, rest)
      else ([], s)
  | [] => ([], [])
  end.

(** [([0-9]+)] *)
Definition digits1 (s : jsstring) : option (jsstring * jsstring) :=
  match span_digits s with
  | ([], _) => None
  | (ds, rest) => Some (ds, rest)
  end.

(** [(?:,[0-9]+)?] : consumes a comma and a digit run when they are there,
    nothing otherwise. *)
Definition opt_count (s : jsstring) : jsstring :=
  match s with
  | c :: s' =>
      if c =? 44
      then match digits1 s' with
           | Some (_, rest) => rest
           | None => s
           end
      else s
  | [] => s
  end.

(** The pattern tried at the head of [s]: the two captured groups. *)
Definition hunk_at (s : jsstring) : option (jsstring * jsstring) :=
  s1 <- lit (str "@@") s ;;
  s2 <- space1 s1 ;;
  s3 <- lit (str "-") s2 ;;
  g1 <- digits1 s3 ;;
  s4 <- space1 (opt_count (snd g1)) ;;
  s5 <- lit (str "+") s4 ;;
  g2 <- digits1 s5 ;;
  s6 <- space1 (opt_count (snd g2)) ;;
  _ <- lit (str "@@") s6 ;;
  Some (fst g1, fst g2).

(** [raw.match(re)] for a pattern without the [g] flag: the match starting at
    the leftmost position that has one; [None] is JavaScript's [null]. *)
Fixpoint hunk_match (s : jsstring) : option (jsstring * jsstring) :=
  match hunk_at s with
  | Some m => Some m
  | None =>
      match s with
      | [] => None
      | _ :: t => hunk_match t
      end
  end.

End Pattern.

Import Pattern.

(** ** The rows *)

(** [type: "add" | "del" | "ctx"] *)
Inductive line_type := add | del | ctx.

(** The loop-local counters [oldLine] and [newLine]. *)
Record counters := { oldLine : N; newLine : N }.

(** One element pushed on [rendered].
    - [HunkHeader i raw] is the [<div key={`h-${i}`}>{raw}</div>] of a header
      line: no number cells, no button.
    - [DiffLine i type displayOld displayNew sign content] is the
      [<div key={`l-${i}`}>] of a content line: the two number cells (empty
      for [null]), the sign cell and the button showing [content]. *)
Inductive element :=
| HunkHeader (i : nat) (raw : jsstring)
| DiffLine (i : nat) (type : line_type) (displayOld displayNew : option N)
    (sign content : jsstring).

(** The body of the [for] loop on line [raw] at index [i]: the counters after
    the iteration and the element pushed. *)
Definition body (i : nat) (st : counters) (raw : jsstring)
  : counters * element :=
  if startsWith raw (str "@@") then
    let st' :=
      match hunk_match raw with
      | Some (m1, m2) => {| oldLine := parseInt m1; newLine := parseInt m2 |}
      | None => st
      end in
    (st', HunkHeader i raw)
  else
    let '(type, displayOld, displayNew, st') :=
      if startsWith raw (str "+") then
        (add, None, Some (newLine st),
         {| oldLine := oldLine st; newLine := add1 (newLine st) |})
      else if startsWith raw (str "-") then
        (del, Some (oldLine st), None,
         {| oldLine := add1 (oldLine st); newLine := newLine st |})
      else
        (ctx, Some (oldLine st), Some (newLine st),
         {| oldLine := add1 (oldLine st);
            newLine := add1 (newLine st) |}) in
    let sign := first_or_blank raw in
    let content :=
      if startsWith raw (str "+") || startsWith raw (str "-")
      then slice1 raw else raw in
    (st', DiffLine i type displayOld displayNew sign content).

(** The [for] loop from index [i] on the remaining lines, [rendered] being
    the array built so far. *)
Fixpoint loop (i : nat) (st : counters) (rendered : list element)
  (lines : list jsstring) : counters * list element :=
  match lines with
  | [] => (st, rendered)
  | raw :: rest =>
      let '(st', e) := body i st raw in
      loop (S i) st' (rendered ++ [e]) rest
  end.

(** The state in which every call starts: [let oldLine = 0; let newLine = 0]. *)
Definition init : counters := {| oldLine := 0; newLine := 0 |}.

(** [DiffViewer({patch, onPickLine})]: the rows placed under the fixed
    old/new/±/code caption. *)
Definition DiffViewer (patch : jsstring) : list element :=
  snd (loop 0 init [] (split_nl patch)).

(** ** Picking a line *)

(** The line the button's [onClick] hands to [onPickLine], if any:
    [const ln = displayNew != null ? displayNew
                : (displayOld != null ? displayOld : 0);
     if (ln) onPickLine(ln);]
    A header row has no button, hence no target. *)
Definition resolveCommentTarget (e : element) : option N :=
  match e with
  | HunkHeader _ _ => None
  | DiffLine _ _ displayOld displayNew _ _ =>
      let ln :=
        match displayNew with
        | Some n => n
        | None => match displayOld with Some o => o | None => 0 end
        end in
      if ln =? 0 then None else Some ln
  end.

(** A click on row [e], [onPickLine] acting on the caller's state. *)
Definition onClick {S : Type} (onPickLine : N -> S -> S) (e : element)
  (s : S) : S :=
  match resolveCommentTarget e with
  | Some ln => onPickLine ln s
  | None => s
  end.

(** [DiffFileBlock]: [onPickLine={(ln) => setSelectedLine(ln)}] over
    [useState<number | null>(null)]. *)
Definition setSelectedLine (ln : N) (_ : option N) : option N := Some ln.

(** [DiffFileBlock]: [file.patch ? <DiffViewer patch={file.patch} /> : ...];
    [None] is the "No patch available." placeholder. *)
Definition DiffFileBlock (patch : jsstring) : option (list element) :=
  match patch with
  | [] => None
  | _ :: _ => Some (DiffViewer patch)
  end.

(** [diffFiles.map((f) => <DiffFileBlock file={f} />)] *)
Definition render_files (patches : list jsstring)
  : list (option (list element)) :=
  map DiffFileBlock patches.

(** ** Reading rows *)

Definition key_index (e : element) : nat :=
  match e with
  | HunkHeader i _ => i
  | DiffLine i _ _ _ _ _ => i
  end.

Definition is_header (e : element) : bool :=
  match e with
  | HunkHeader _ _ => true
  | DiffLine _ _ _ _ _ _ => false
  end.

(** The number shown in the old (resp. new) cell; a header row has no cell. *)
Definition old_number (e : element) : option N :=
  match e with
  | HunkHeader _ _ => None
  | DiffLine _ _ o _ _ _ => o
  end.

Definition new_number (e : element) : option N :=
  match e with
  | HunkHeader _ _ => None
  | DiffLine _ _ _ n _ _ => n
  end.

(** The text shown for the row. *)
Definition display_text (e : element) : jsstring :=
  match e with
  | HunkHeader _ raw => raw
  | DiffLine _ _ _ _ _ content => content
  end.

(** ** The vocabulary of the spec *)

(** The kind of a row. *)
Inductive kind := hunk_header | addition | deletion | context.

Definition row_kind (e : element) : kind :=
  match e with
  | HunkHeader _ _ => hunk_header
  | DiffLine _ add _ _ _ _ => addition
  | DiffLine _ del _ _ _ _ => deletion
  | DiffLine _ ctx _ _ _ _ => context
  end.

(** What the spec reads off a row: kind, old number, new number, text. *)
Definition view (e : element) : kind * option N * option N * jsstring :=
  (row_kind e, old_number e, new_number e, display_text e).

Definition carries (o : option N) : bool :=
  match o with
  | Some _ => true
  | None => false
  end.

(** The presence rule of each kind: (old cell filled, new cell filled). *)
Definition cells_of_kind (k : kind) : bool * bool :=
  match k with
  | addition => (false, true)
  | deletion => (true, false)
  | context => (true, true)
  | hunk_header => (false, false)
  end.

(** The number [onClick] prefers: the new one, else the old one. *)
Definition preferred_number (e : element) : option N :=
  match new_number e with
  | Some n => Some n
  | None => old_number e
  end.

(** The input line a row was built from. *)
Definition source_line (e : element) : jsstring :=
  match e with
  | HunkHeader _ raw => raw
  | DiffLine _ ctx _ _ _ content => content
  | DiffLine _ _ _ _ sign content => sign ++ content
  end.

(** The header format of the spec:
    [@@ -oldStart[,oldCount] +newStart[,newCount] @@], then anything. *)
Definition digits (ds : jsstring) : Prop :=
  ds <> [] /\ forallb is_digit ds = true.

Definition count_suffix (c : jsstring) : Prop :=
  c = [] \/ exists ds, digits ds /\ c = 44 :: ds.

Definition well_formed_header (raw oldStart newStart : jsstring) : Prop :=
  exists oldCount newCount tail,
    digits oldStart /\ digits newStart /\
    count_suffix oldCount /\ count_suffix newCount /\
    raw = str "@@ -" ++ oldStart ++ oldCount ++ str " +" ++ newStart
          ++ newCount ++ str " @@" ++ tail.

(** ** The language of the pattern *)

(** The strings the pattern can be read on from their first code unit, with
    the two groups [o] and [n]. *)
Definition hunk_shape (s o n : jsstring) : Prop :=
  exists w1 oc w2 nc w3 tail,
    is_space w1 = true /\ is_space w2 = true /\ is_space w3 = true /\
    digits o /\ digits n /\ count_suffix oc /\ count_suffix nc /\
    s = str "@@" ++ w1 :: str "-" ++ o ++ oc ++ w2 :: str "+" ++ n ++ nc
        ++ w3 :: str "@@" ++ tail.

(** What may follow a digit run for the run to be read whole. *)
Definition stops_digits (rest : jsstring) : Prop :=
  match rest with
  | [] => True
  | c :: _ => is_digit c = false
  end.

(** The Number values: what [to_double] returns. *)
Definition is_double (x : N) : Prop := to_double x = x.

(** Counters that hold Number values. *)
Definition doubles (st : counters) : Prop :=
  is_double (oldLine st) /\ is_double (newLine st).

(** ** The loop, unrolled for proofs *)

(** The counters after one iteration (they do not depend on the index). *)
Definition advance (st : counters) (raw : jsstring) : counters :=
  fst (body 0 st raw).

(** The counters after a sequence of lines. *)
Definition after (st : counters) (lines : list jsstring) : counters :=
  fold_left advance lines st.

(** The rows pushed for [lines], from index [i] and counters [st]. *)
Fixpoint rows_from (i : nat) (st : counters) (lines : list jsstring)
  : list element :=
  match lines with
  | [] => []
  | raw :: rest => snd (body i st raw) :: rows_from (S i) (advance st raw) rest
  end.

(** The row pushed for line [raw] when it comes after the lines [pre]. *)
Definition row_of (pre : list jsstring) (raw : jsstring) : element :=
  snd (body (length pre) (after init pre) raw).

(** [lines.join("\n")], to write patches line by line. *)
Fixpoint join_nl (lines : list jsstring) : jsstring :=
  match lines with
  | [] => []
  | [l] => l
  | l :: rest => l ++ 10 :: join_nl rest
  end.

(** A content line is any line that is not a header line. *)
Definition is_content (raw : jsstring) : bool :=
  negb (startsWith raw (str "@@")).

(** The type the loop gives a content line. *)
Definition line_kind (raw : jsstring) : line_type :=
  if startsWith raw (str "+") then add
  else if startsWith raw (str "-") then del
  else ctx.

(** A header line that the pattern matches: the only lines that reset. *)
Definition resets (raw : jsstring) : bool :=
  startsWith raw (str "@@")
  && match hunk_match raw with Some _ => true | None => false end.

(** By how much a line moves each counter when it does not reset them. *)
Definition old_step (raw : jsstring) : N :=
  if is_content raw
  then match line_kind raw with add => 0 | _ => 1 end
  else 0.

Definition new_step (raw : jsstring) : N :=
  if is_content raw
  then match line_kind raw with del => 0 | _ => 1 end
  else 0.

Definition total (f : jsstring -> N) (lines : list jsstring) : N :=
  fold_right (fun raw acc => f raw + acc) 0 lines.

(** ** The end-to-end scenario of the spec *)

Definition scenario : jsstring :=
  join_nl [ str "@@ -1,3 +1,4 @@";
            str " line one";
            str "-line two";
            str "+line two modified";
            str "+line three new";
            str " line four" ].

(** The rows the scenario is said to give. *)
Definition scenario_claimed : list (kind * option N * option N * jsstring) :=
  [ (hunk_header, None, None, str "@@ -1,3 +1,4 @@");
    (context, Some 1, Some 1, str "line one");
    (deletion, Some 1, None, str "line two");
    (addition, None, Some 2, str "line two modified");
    (addition, None, Some 3, str "line three new");
    (context, Some 2, Some 4, str "line four") ].

(** The rows the code gives: the context line has moved the old counter to 2
    before the deletion is numbered, and context rows show the raw line. *)
Definition scenario_rows : list (kind * option N * option N * jsstring) :=
  [ (hunk_header, None, None, str "@@ -1,3 +1,4 @@");
    (context, Some 1, Some 1, str " line one");
    (deletion, Some 2, None, str "line two");
    (addition, None, Some 2, str "line two modified");
    (addition, None, Some 3, str "line three new");
    (context, Some 3, Some 4, str " line four") ].

(** * More of the review panel *)

(** ** Numerals *)

(** The code units of a decimal numeral. *)
Fixpoint uint_codes (d : Decimal.uint) : jsstring :=
  match d with
  | Decimal.Nil => []
  | Decimal.D0 u => 48 :: uint_codes u
  | Decimal.D1 u => 49 :: uint_codes u
  | Decimal.D2 u => 50 :: uint_codes u
  | Decimal.D3 u => 51 :: uint_codes u
  | Decimal.D4 u => 52 :: uint_codes u
  | Decimal.D5 u => 53 :: uint_codes u
  | Decimal.D6 u => 54 :: uint_codes u
  | Decimal.D7 u => 55 :: uint_codes u
  | Decimal.D8 u => 56 :: uint_codes u
  | Decimal.D9 u => 57 :: uint_codes u
  end.

(** The decimal numeral of an integer, without leading zeros. *)
Definition decimal_numeral (n : N) : jsstring := uint_codes (N.to_uint n).

(** The digits [String] prints for a double [x] above 2^53: the shortest
    [s], of [k] digits, such that [s * 10^(n-k)] reads back as [x]; of two
    that do, the nearer to [x], and the even one if they are as near.
    [shortest_with x d k] tries [k] digits on an [x] of [d] digits and gives
    [s] and [n]. *)
Definition shortest_with (x : N) (d k : nat) : option (N * nat) :=
  let p := 10 ^ N.of_nat (d - k) in
  let lo := x / p in
  let hi := lo + 1 in
  let ok_lo := to_double (lo * p) =? x in
  let ok_hi := to_double (hi * p) =? x in
  let pick_hi :=
    if hi =? 10 ^ N.of_nat k then (10 ^ N.of_nat (k - 1), S d) else (hi, d) in
  if ok_lo && ok_hi then
    if x - lo * p <? hi * p - x then Some (lo, d)
    else if hi * p - x <? x - lo * p then Some pick_hi
    else if N.even lo then Some (lo, d) else Some pick_hi
  else if ok_lo then Some (lo, d)
  else if ok_hi then Some pick_hi
  else None.

Fixpoint shortest_from (x : N) (d k fuel : nat) : N * nat :=
  match fuel with
  | O => (x, d)
  | S fuel' =>
      match shortest_with x d k with
      | Some r => r
      | None => shortest_from x d (S k) fuel'
      end
  end.

(** [String(x)] and [`${x}`] for a counter [x] (Number::toString, radix
    10).  Up to 2^53 every integer is a double and the shortest digits that
    read back are its own numeral.  Above, the shortest digits are followed
    by zeros while the number has at most 21 digits, and written with an
    exponent beyond ([1e+21]). *)
Definition String_of_number (x : N) : jsstring :=
  if x <? 2 ^ 53 then decimal_numeral x
  else if 2 ^ 1024 <=? x then str "Infinity"
  else
    let d := length (decimal_numeral x) in
    let '(s, n) := shortest_from x d 1 d in
    let digits := decimal_numeral s in
    let k := length digits in
    if (n <=? 21)%nat then digits ++ repeat 48 (n - k)
    else
      match digits with
      | [] => []
      | first :: rest =>
          first :: match rest with [] => [] | _ :: _ => 46 :: rest end
          ++ str "e+" ++ decimal_numeral (N.of_nat (n - 1))
      end.

(** A header line as a diff tool writes it for the starts [a] and [b], with
    or without counts, followed by any text. *)
Definition count_text (c : option N) : jsstring :=
  match c with
  | Some k => 44 :: decimal_numeral k
  | None => []
  end.

Definition header_line (a : N) (ca : option N) (b : N) (cb : option N)
  (tail : jsstring) : jsstring :=
  str "@@ -" ++ decimal_numeral a ++ count_text ca ++ str " +"
  ++ decimal_numeral b ++ count_text cb ++ str " @@" ++ tail.

(** ** The tooltip and the sign cell of a row *)

(** The [title] of the button of a row:
    [displayNew != null ? `Comment on L${displayNew}`
     : (displayOld != null ? `Comment on L${displayOld}` : undefined)];
    [None] when there is no tooltip (and for a header row, which has no
    button). *)
Definition row_title (e : element) : option jsstring :=
  match e with
  | HunkHeader _ _ => None
  | DiffLine _ _ displayOld displayNew _ _ =>
      match displayNew with
      | Some n => Some (str "Comment on L" ++ String_of_number n)
      | None =>
          match displayOld with
          | Some o => Some (str "Comment on L" ++ String_of_number o)
          | None => None
          end
      end
  end.

(** What the sign cell of a row shows; a header row has no sign cell. *)
Definition sign_cell (e : element) : option jsstring :=
  match e with
  | HunkHeader _ _ => None
  | DiffLine _ _ _ _ sign _ => Some sign
  end.

(** ** The two columns of numbers *)

(** The numbers that appear in the old (resp. new) column, top to bottom. *)
Definition shown_old (rows : list element) : list N :=
  flat_map (fun e => match old_number e with Some n => [n] | None => [] end)
           rows.

Definition shown_new (rows : list element) : list N :=
  flat_map (fun e => match new_number e with Some n => [n] | None => [] end)
           rows.

(** [b; b+1; ...], [m] numbers. *)
Definition count_from (b : N) (m : nat) : list N :=
  map (fun j => b + N.of_nat j) (seq 0 m).

(** The rows of the [len] lines that follow the line of index [i]. *)
Definition rows_after (i len : nat) (rows : list element) : list element :=
  firstn len (skipn (S i) rows).

(** Row [e] with its React key moved [d] lines down. *)
Definition rekey (d : nat) (e : element) : element :=
  match e with
  | HunkHeader i raw => HunkHeader (d + i) raw
  | DiffLine i type displayOld displayNew sign content =>
      DiffLine (d + i) type displayOld displayNew sign content
  end.

(** ** White space at the ends of a string *)

(** [s.trimStart()] *)
Fixpoint trimStart (s : jsstring) : jsstring :=
  match s with
  | c :: t => if is_space c then trimStart t else s
  | [] => []
  end.

(** [s.trimEnd()] *)
Definition trimEnd (s : jsstring) : jsstring := rev (trimStart (rev s)).

(** [s.trim()]: the white space of [String.prototype.trim] is the class
    [\s]. *)
Definition trim (s : jsstring) : jsstring := trimEnd (trimStart s).

(** ** The two feedback forms *)

(** The JSON body posted by the overall-feedback form of
    [AdminReviewPanel]. *)
Record overall_body := {
  ob_user_type : jsstring;
  ob_author_email : jsstring;
  ob_author_name : jsstring;
  ob_message : jsstring
}.

(** [onSubmit] of the overall-feedback form:
    [if (!overallText.trim()) return;] then the POST of the body; [None]
    when nothing is sent. *)
Definition overall_submit (overallText : jsstring) : option overall_body :=
  match trim overallText with
  | [] => None
  | _ :: _ =>
      Some {| ob_user_type := str "admin";
              ob_author_email := str "admin@yourdomain.com";
              ob_author_name := str "Admin";
              ob_message := trim overallText |}
  end.

(** [line ? Number(line) : null]: [null], or [Number] applied to the
    non-empty text of the Line field. *)
Inductive line_value :=
| line_null
| line_Number (text : jsstring).

(** The JSON body posted by [InlineCommentForm]. *)
Record inline_body := {
  ib_file_path : jsstring;
  ib_line : line_value;
  ib_message : jsstring;
  ib_author_email : jsstring;
  ib_author_name : jsstring
}.

(** [onSubmit] of [InlineCommentForm]: [if (!message.trim()) return;] then
    the POST of the body; [None] when nothing is sent. *)
Definition inline_submit (filePath line message : jsstring)
  : option inline_body :=
  match trim message with
  | [] => None
  | _ :: _ =>
      Some {| ib_file_path := filePath;
              ib_line := match line with
                         | [] => line_null
                         | _ :: _ => line_Number line
                         end;
              ib_message := message;
              ib_author_email := str "admin@yourdomain.com";
              ib_author_name := str "Admin" |}
  end.

(** ** A file block: the selected line and the Line field *)

(** What [DiffFileBlock] and its [InlineCommentForm] keep between renders:
    [selectedLine], and the [line] and [message] fields of the form. *)
Record block_state := {
  selectedLine : option N;
  line_field : jsstring;
  message_field : jsstring
}.

(** The state at mount: [useState(null)], [useState("")], [useState("")];
    the effect of the first render sees [prefillLine == null] and does
    nothing. *)
Definition mounted : block_state :=
  {| selectedLine := None; line_field := []; message_field := [] |}.

(** The dependency test of [useEffect(..., [prefillLine])]. *)
Definition same_line (a b : option N) : bool :=
  match a, b with
  | Some x, Some y => x =? y
  | None, None => true
  | _, _ => false
  end.

(** The effect of [InlineCommentForm], run when [prefillLine] has changed
    between two renders:
    [if (prefillLine != null) setLine(String(prefillLine))]. *)
Definition prefill_effect (previous current : option N) (line : jsstring)
  : jsstring :=
  if same_line previous current then line
  else match current with
       | Some n => String_of_number n
       | None => line
       end.

(** A click on the button of row [e], then the render it causes. *)
Definition pick (e : element) (st : block_state) : block_state :=
  let selected := onClick setSelectedLine e (selectedLine st) in
  {| selectedLine := selected;
     line_field := prefill_effect (selectedLine st) selected (line_field st);
     message_field := message_field st |}.

(** Typing in the Line and message inputs: [setLine(e.target.value)],
    [setMessage(e.target.value)]. *)
Definition type_line (text : jsstring) (st : block_state) : block_state :=
  {| selectedLine := selectedLine st; line_field := text;
     message_field := message_field st |}.

Definition type_message (text : jsstring) (st : block_state) : block_state :=
  {| selectedLine := selectedLine st; line_field := line_field st;
     message_field := text |}.

(** The end of a submit whose request was answered:
    [setMessage(""); setLine("")]. *)
Definition submitted (st : block_state) : block_state :=
  {| selectedLine := selectedLine st; line_field := [];
     message_field := [] |}.

(** A sequence of clicks on rows. *)
Definition picks (clicked : list element) (st : block_state) : block_state :=
  fold_left (fun s e => pick e s) clicked st.

(** ** The comments listed under each file *)

(** [a === b] on strings. *)
Fixpoint strict_eq (a b : jsstring) : bool :=
  match a, b with
  | [], [] => true
  | x :: a', y :: b' => (x =? y) && strict_eq a' b'
  | _, _ => false
  end.

Section Comments.

(** Comments and files are untyped objects of which the panel reads the
    string fields [c.file_path] and [f.filename]. *)
Variables (comment file : Type).
Variable file_path : comment -> jsstring.
Variable filename : file -> jsstring.

(** [inlineComments.filter((c) => c.file_path === f.filename)] *)
Definition comments_of (inlineComments : list comment) (f : file)
  : list comment :=
  filter (fun c => strict_eq (file_path c) (filename f)) inlineComments.

(** [diffFiles.map((f) => <DiffFileBlock inlineComments={...} />)]: the
    comment list handed to each block. *)
Definition blocks_comments (diffFiles : list file)
  (inlineComments : list comment) : list (list comment) :=
  map (comments_of inlineComments) diffFiles.

End Comments.

(** ** The countdown of the candidate's start page

    [updateTimer] of [CandidateStartPage]; [diff] is [deadline - now] in
    milliseconds, an integer when both dates are valid. *)

(** [parts.join(sep)] *)
Fixpoint join_with (sep : jsstring) (parts : list jsstring) : jsstring :=
  match parts with
  | [] => []
  | [p] => p
  | p :: rest => p ++ sep ++ join_with sep rest
  end.

(** [Math.floor(diff / (1000 * 60 * 60 * 24))] and the three other
    components; [%] is the remainder that takes the sign of [diff]. *)
Definition timer_days (diff : Z) : Z :=
  (diff / (1000 * 60 * 60 * 24))%Z.

Definition timer_hours (diff : Z) : Z :=
  (Z.rem diff (1000 * 60 * 60 * 24) / (1000 * 60 * 60))%Z.

Definition timer_minutes (diff : Z) : Z :=
  (Z.rem diff (1000 * 60 * 60) / (1000 * 60))%Z.

Definition timer_seconds (diff : Z) : Z :=
  (Z.rem diff (1000 * 60) / 1000)%Z.

(** [`${n}d`], [`${n}h`], ... for a component [n], never negative here. *)
Definition unit_text (n : Z) (unit : string) : jsstring :=
  String_of_number (Z.to_N n) ++ str unit.

(** The array [parts] after the four conditional pushes. *)
Definition timer_parts (diff : Z) : list jsstring :=
  let days := timer_days diff in
  let hours := timer_hours diff in
  let minutes := timer_minutes diff in
  let seconds := timer_seconds diff in
  (if (0 <? days)%Z then [unit_text days "d"] else [])
  ++ (if (0 <? hours)%Z || (0 <? days)%Z
      then [unit_text hours "h"] else [])
  ++ (if (0 <? minutes)%Z || (0 <? hours)%Z || (0 <? days)%Z
      then [unit_text minutes "m"] else [])
  ++ [unit_text seconds "s"].

(** The text handed to [setTimeRemaining]; [started] is
    [meta?.invite.status === "started"]. *)
Definition updateTimer (started : bool) (diff : Z) : jsstring :=
  if (diff <=? 0)%Z
  then if started then str "Time expired" else str "Start deadline passed"
  else join_with (str " ") (timer_parts diff).

(** * Facts on doubles *)

Lemma to_double_small (n : N) : n < 2 ^ 53 -> to_double n = n.
Proof. intros H. unfold to_double. now rewrite (proj2 (N.ltb_lt _ _) H). Qed.

Lemma to_double_two_53 : to_double (2 ^ 53) = 2 ^ 53.
Proof. vm_compute. reflexivity. Qed.

Lemma to_double_exact (n : N) : n <= 2 ^ 53 -> to_double n = n.
Proof.
  intros H. destruct (N.eq_dec n (2 ^ 53)) as [->|Hne].
  - apply to_double_two_53.
  - apply to_double_small. lia.
Qed.

Lemma add1_exact (x : N) : x < 2 ^ 53 -> add1 x = x + 1.
Proof. intros H. apply to_double_exact. lia. Qed.

(** The significand and the exponent of the last place of a number from
    2^53 on. *)
Lemma last_place (n : N) :
  2 ^ 53 <= n ->
  1 <= N.log2 n - 52
  /\ 2 ^ 52 <= n / 2 ^ (N.log2 n - 52) < 2 ^ 53
  /\ N.log2 n = 52 + (N.log2 n - 52).
Proof.
  intros H.
  assert (Hpos : 0 < n) by (pose proof (N.pow_nonzero 2 53); lia).
  destruct (N.log2_spec n Hpos) as [Hlo Hhi].
  assert (Hl : 53 <= N.log2 n).
  { apply N.log2_le_pow2; [assumption|]. exact H. }
  set (e := N.log2 n - 52) in *.
  assert (El : N.log2 n = 52 + e) by lia.
  split; [lia|]. split; [|exact El].
  rewrite El in Hlo. rewrite El, <- N.add_succ_l in Hhi.
  change (N.succ 52) with 53 in Hhi. rewrite N.pow_add_r in Hlo, Hhi.
  assert (H2 : 0 < 2 ^ e) by (apply N.neq_0_lt_0, N.pow_nonzero; lia).
  split.
  - apply N.div_le_lower_bound; lia.
  - apply N.Div0.div_lt_upper_bound; lia.
Qed.

Lemma to_double_shape (n : N) :
  2 ^ 53 <= n ->
  to_double n = Infinity
  \/ exists q e, 1 <= e /\ 2 ^ 52 <= q <= 2 ^ 53
       /\ n / 2 ^ (N.log2 n - 52) <= q
       /\ e = N.log2 n - 52
       /\ q * 2 ^ e < 2 ^ 1024 /\ to_double n = q * 2 ^ e.
Proof.
  intros H. destruct (last_place n H) as (He & [Hq1 Hq2] & _).
  unfold to_double. rewrite (proj2 (N.ltb_ge _ _) H). cbv zeta.
  set (e := N.log2 n - 52) in *. set (q := n / 2 ^ e) in *.
  set (q' := if n mod 2 ^ e <? 2 ^ (e - 1) then q
             else if 2 ^ (e - 1) <? n mod 2 ^ e then q + 1
             else if N.even q then q else q + 1).
  assert (Hq' : q <= q' <= q + 1).
  { subst q'. destruct (n mod 2 ^ e <? 2 ^ (e - 1)); [lia|].
    destruct (2 ^ (e - 1) <? n mod 2 ^ e); [lia|].
    destruct (N.even q); lia. }
  destruct (N.leb_spec (2 ^ 1024) (q' * 2 ^ e)); [now left|right].
  exists q', e. repeat split; try lia.
Qed.

Lemma log2_grid (q e : N) :
  2 ^ 52 <= q < 2 ^ 53 -> N.log2 (q * 2 ^ e) = 52 + e.
Proof.
  intros [H1 H2]. apply N.log2_unique; [lia|].
  assert (0 < 2 ^ e) by (apply N.neq_0_lt_0, N.pow_nonzero; lia).
  rewrite <- N.add_succ_l. change (N.succ 52) with 53.
  rewrite !N.pow_add_r. nia.
Qed.

(** Multiples of the last place are doubles. *)
Lemma grid_fixed (q e : N) :
  1 <= e -> 2 ^ 52 <= q <= 2 ^ 53 -> q * 2 ^ e < 2 ^ 1024 ->
  to_double (q * 2 ^ e) = q * 2 ^ e.
Proof.
  assert (Hgen : forall q e, 1 <= e -> 2 ^ 52 <= q < 2 ^ 53 ->
            q * 2 ^ e < 2 ^ 1024 -> to_double (q * 2 ^ e) = q * 2 ^ e).
  { clear. intros q e He Hq Hfin.
    assert (H2 : 0 < 2 ^ e) by (apply N.neq_0_lt_0, N.pow_nonzero; lia).
    assert (H2' : 2 <= 2 ^ e).
    { change 2 with (2 ^ 1) at 1. apply N.pow_le_mono_r; lia. }
    unfold to_double.
    assert (Hbig : 2 ^ 53 <= q * 2 ^ e).
    { change (2 ^ 53) with (2 ^ 52 * 2). nia. }
    rewrite (proj2 (N.ltb_ge _ _) Hbig). cbv zeta.
    rewrite (log2_grid q e Hq).
    replace (52 + e - 52) with e by lia.
    rewrite N.div_mul, N.Div0.mod_mul by lia.
    assert (Hh : 0 < 2 ^ (e - 1)) by (apply N.neq_0_lt_0, N.pow_nonzero; lia).
    rewrite (proj2 (N.ltb_lt _ _) Hh).
    now rewrite (proj2 (N.leb_gt _ _) Hfin). }
  intros He [Hq1 Hq2] Hfin.
  destruct (N.eq_dec q (2 ^ 53)) as [->|Hne].
  - replace (2 ^ 53 * 2 ^ e) with (2 ^ 52 * 2 ^ (e + 1)) in *
      by (rewrite N.pow_add_r; change (2 ^ 53) with (2 ^ 52 * 2); 
          change (2 ^ 1) with 2; lia).
    apply Hgen; lia.
  - apply Hgen; lia.
Qed.

Lemma Infinity_fixed : to_double Infinity = Infinity.
Proof. vm_compute. reflexivity. Qed.

Lemma to_double_fixed (n : N) : is_double (to_double n).
Proof.
  unfold is_double. destruct (N.lt_ge_cases n (2 ^ 53)) as [H|H].
  - now rewrite !(to_double_small n H).
  - destruct (to_double_shape n H) as [->|(q & e & He & Hq & _ & _ & Hfin & ->)].
    + apply Infinity_fixed.
    + now apply grid_fixed.
Qed.

Lemma to_double_pos (n : N) : 1 <= n -> 1 <= to_double n.
Proof.
  intros Hn. destruct (N.lt_ge_cases n (2 ^ 53)) as [H|H].
  - now rewrite (to_double_small n H).
  - destruct (to_double_shape n H) as [->|(q & e & He & Hq & _ & _ & _ & ->)].
    + vm_compute. discriminate.
    + assert (0 < 2 ^ e) by (apply N.neq_0_lt_0, N.pow_nonzero; lia).
      assert (0 < 2 ^ 52) by (apply N.neq_0_lt_0, N.pow_nonzero; lia).
      nia.
Qed.

Lemma add1_pos (x : N) : 1 <= add1 x.
Proof. apply to_double_pos. lia. Qed.

(** [+= 1] never takes a counter down. *)
Lemma add1_ge (x : N) : is_double x -> x <= add1 x.
Proof.
  intros Hx. unfold add1.
  destruct (N.lt_ge_cases x (2 ^ 53)) as [H|H].
  - rewrite to_double_exact by lia. lia.
  - destruct (to_double_shape x H)
      as [Hinf|(q & e & He & Hq & _ & Ee & Hfin & Hx')].
    + rewrite Hx in Hinf. subst x. vm_compute. discriminate.
    + rewrite Hx in Hx'.
      assert (H2 : 2 <= 2 ^ e).
      { change 2 with (2 ^ 1) at 1. apply N.pow_le_mono_r; lia. }
      assert (Hbig : 2 ^ 53 <= x + 1) by lia.
      destruct (to_double_shape (x + 1) Hbig)
        as [->|(q1 & e1 & _ & _ & Hq1 & Ee1 & _ & ->)].
      * unfold Infinity. lia.
      * (* the last place of x + 1 is that of x *)
        assert (El : N.log2 (x + 1) = N.log2 x).
        { assert (Hpos : 0 < x) by (pose proof (N.pow_nonzero 2 53); lia).
          destruct (N.log2_spec x Hpos) as [Hlo Hhi].
          apply N.log2_unique; [lia|]. split; [lia|].
          (* x and 2^(S (log2 x)) are multiples of 2^e *)
          assert (Hs : N.succ (N.log2 x) = (N.succ (N.log2 x) - e) + e)
            by (destruct (last_place x H); lia).
          rewrite Hs, N.pow_add_r in Hhi |- *.
          set (t := 2 ^ (N.succ (N.log2 x) - e)) in *.
          set (m := 2 ^ e) in *. clearbody t m.
          assert (q < t) by (apply (N.mul_lt_mono_pos_r m); lia).
          nia. }
        rewrite El in Ee1. rewrite <- Ee in Ee1. subst e1.
        rewrite El, <- Ee in Hq1.
        assert (Hdiv : (x + 1) / 2 ^ e = q).
        { rewrite Hx'. symmetry. apply (N.div_unique _ _ q 1); lia. }
        rewrite Hdiv in Hq1. rewrite Hx'. nia.
Qed.

(** * Facts on the loop *)

Lemma body_counters (i : nat) (st : counters) (raw : jsstring) :
  fst (body i st raw) = advance st raw.
Proof.
  unfold advance, body.
  destruct (startsWith raw (str "@@")); [reflexivity|].
  destruct (startsWith raw (str "+")); [reflexivity|].
  destruct (startsWith raw (str "-")); reflexivity.
Qed.

Lemma loop_unrolled (lines : list jsstring) :
  forall i st rendered,
    loop i st rendered lines
    = (after st lines, rendered ++ rows_from i st lines).
Proof.
  induction lines as [|raw rest IH]; intros i st rendered; simpl.
  - now rewrite app_nil_r.
  - destruct (body i st raw) as [st' e] eqn:Hb.
    rewrite IH, <- app_assoc. simpl.
    pose proof (body_counters i st raw) as Hc. rewrite Hb in Hc. simpl in Hc.
    now subst st'.
Qed.

Lemma DiffViewer_rows (patch : jsstring) :
  DiffViewer patch = rows_from 0 init (split_nl patch).
Proof. unfold DiffViewer. now rewrite loop_unrolled. Qed.

Lemma rows_from_length (lines : list jsstring) :
  forall i st, length (rows_from i st lines) = length lines.
Proof. induction lines; intros; simpl; auto. Qed.

Lemma after_app (st : counters) (a b : list jsstring) :
  after st (a ++ b) = after (after st a) b.
Proof. apply fold_left_app. Qed.

Lemma rows_from_app (a : list jsstring) :
  forall b i st,
    rows_from i st (a ++ b)
    = rows_from i st a ++ rows_from (length a + i) (after st a) b.
Proof.
  induction a as [|raw a IH]; intros b i st; simpl; [reflexivity|].
  rewrite IH. now rewrite Nat.add_succ_r.
Qed.

Lemma rows_from_nth (pre : list jsstring) (raw : jsstring)
  (post : list jsstring) (i : nat) (st : counters) :
  nth_error (rows_from i st (pre ++ raw :: post)) (length pre)
  = Some (snd (body (length pre + i) (after st pre) raw)).
Proof.
  rewrite rows_from_app, nth_error_app2
    by (rewrite rows_from_length; apply Nat.le_refl).
  rewrite rows_from_length, Nat.sub_diag. reflexivity.
Qed.

Lemma nth_error_split_at {A : Type} (l : list A) :
  forall k x, nth_error l k = Some x ->
    l = firstn k l ++ x :: skipn (S k) l /\ length (firstn k l) = k.
Proof.
  induction l as [|a l IH]; intros [|k] x H; simpl in *; try discriminate.
  - inversion H. auto.
  - destruct (IH k x H) as [E L]. split; [now rewrite <- E | now rewrite L].
Qed.

(** * Facts on splitting *)

Lemma split_nl_cons (c : char) (t : jsstring) :
  split_nl (c :: t)
  = if c =? 10 then [] :: split_nl t
    else (c :: hd [] (split_nl t)) :: tl (split_nl t).
Proof.
  simpl. destruct (c =? 10); [reflexivity|].
  destruct (split_nl t) eqn:E; [|reflexivity].
  destruct t; simpl in E; [discriminate|].
  destruct (c0 =? 10); [discriminate|].
  destruct (split_nl t); discriminate.
Qed.

Lemma split_nl_not_nil (s : jsstring) : split_nl s <> [].
Proof.
  destruct s as [|c t]; [discriminate|].
  rewrite split_nl_cons. destruct (c =? 10); discriminate.
Qed.

Lemma split_nl_length (s : jsstring) :
  length (split_nl s) = S (count_occ N.eq_dec s 10).
Proof.
  induction s as [|c t IH]; [reflexivity|].
  rewrite split_nl_cons. simpl count_occ.
  destruct (N.eqb_spec c 10) as [->|Hc].
  - destruct (N.eq_dec 10 10); [simpl; now rewrite IH | contradiction].
  - destruct (N.eq_dec c 10); [contradiction|].
    rewrite <- IH. pose proof (split_nl_not_nil t).
    destruct (split_nl t); [contradiction | reflexivity].
Qed.

Lemma join_split_nl (s : jsstring) : join_nl (split_nl s) = s.
Proof.
  induction s as [|c t IH]; [reflexivity|].
  rewrite split_nl_cons. pose proof (split_nl_not_nil t) as Hne.
  destruct (N.eqb_spec c 10) as [->|Hc].
  - destruct (split_nl t) as [|p ps] eqn:E; [contradiction|].
    change (join_nl ([] :: p :: ps)) with (10 :: join_nl (p :: ps)).
    now rewrite IH.
  - destruct (split_nl t) as [|p ps] eqn:E; [contradiction|].
    simpl hd. simpl tl. rewrite <- IH.
    destruct ps; reflexivity.
Qed.

Lemma split_nl_line (l : jsstring) : ~ In 10 l -> split_nl l = [l].
Proof.
  induction l as [|c l IH]; intros H; [reflexivity|].
  rewrite split_nl_cons.
  destruct (N.eqb_spec c 10) as [->|_]; [exfalso; apply H; now left|].
  rewrite IH by (intros Hin; apply H; now right). reflexivity.
Qed.

Lemma split_nl_app_lf (l s : jsstring) :
  ~ In 10 l -> split_nl (l ++ 10 :: s) = l :: split_nl s.
Proof.
  induction l as [|c l IH]; intros H; [reflexivity|].
  change ((c :: l) ++ 10 :: s) with (c :: (l ++ 10 :: s)).
  rewrite split_nl_cons.
  destruct (N.eqb_spec c 10) as [->|_]; [exfalso; apply H; now left|].
  rewrite IH by (intros Hin; apply H; now right). reflexivity.
Qed.

(** Every non-empty list of lines free of line feeds is the split of a
    patch: the patch made by joining them. *)
Lemma split_join_nl (lines : list jsstring) :
  lines <> [] -> Forall (fun l => ~ In 10 l) lines ->
  split_nl (join_nl lines) = lines.
Proof.
  induction lines as [|l rest IH]; intros Hne Hall; [contradiction|].
  inversion Hall as [|? ? Hl Hrest]; subst.
  destruct rest as [|l' rest].
  - now apply split_nl_line.
  - change (join_nl (l :: l' :: rest)) with (l ++ 10 :: join_nl (l' :: rest)).
    rewrite split_nl_app_lf by assumption.
    now rewrite IH by (assumption || discriminate).
Qed.

(** * Facts on the pattern *)

Lemma space_not_digit (c : char) : is_space c = true -> is_digit c = false.
Proof.
  unfold is_space, is_digit. intros H.
  rewrite !orb_true_iff, !andb_true_iff, !N.leb_le, !N.eqb_eq in H.
  apply andb_false_iff.
  destruct (N.leb_spec 48 c); [right | now left].
  apply N.leb_gt. lia.
Qed.

Lemma space_not_comma (c : char) : is_space c = true -> (c =? 44) = false.
Proof.
  unfold is_space. intros H.
  rewrite !orb_true_iff, !andb_true_iff, !N.leb_le, !N.eqb_eq in H.
  apply N.eqb_neq. lia.
Qed.

Lemma span_digits_run (ds rest : jsstring) :
  forallb is_digit ds = true -> stops_digits rest ->
  span_digits (ds ++ rest) = (ds, rest).
Proof.
  intros Hd Hr. induction ds as [|d ds IH].
  - destruct rest as [|c rest]; [reflexivity|].
    cbn [app span_digits]. unfold stops_digits in Hr. now rewrite Hr.
  - cbn [forallb] in Hd. apply andb_true_iff in Hd as [Hd Hds].
    cbn [app span_digits]. now rewrite Hd, IH.
Qed.

Lemma digits1_run (ds rest : jsstring) :
  digits ds -> stops_digits rest -> digits1 (ds ++ rest) = Some (ds, rest).
Proof.
  intros [Hne Hd] Hr. unfold digits1. rewrite span_digits_run by assumption.
  destruct ds; [contradiction | reflexivity].
Qed.

Lemma span_digits_spec (s : jsstring) :
  forall ds rest, span_digits s = (ds, rest) ->
    s = ds ++ rest /\ forallb is_digit ds = true /\ stops_digits rest.
Proof.
  induction s as [|c s IH]; intros ds rest H; simpl in H.
  - inversion H. simpl. auto.
  - destruct (is_digit c) eqn:Hc.
    + destruct (span_digits s) as [ds' rest'] eqn:E. inversion H; subst.
      destruct (IH ds' rest eq_refl) as (-> & Hd & Hr).
      simpl. rewrite Hc. auto.
    + inversion H; subst. simpl. auto.
Qed.

Lemma digits1_spec (s ds rest : jsstring) :
  digits1 s = Some (ds, rest) ->
  s = ds ++ rest /\ digits ds /\ stops_digits rest.
Proof.
  unfold digits1. destruct (span_digits s) as [ds' rest'] eqn:E.
  destruct ds' as [|d ds']; [discriminate|].
  intros H. inversion H; subst.
  destruct (span_digits_spec _ _ _ E) as (-> & Hd & Hr).
  repeat split; auto. discriminate.
Qed.

Lemma opt_count_skip (c rest : jsstring) (w : char) :
  count_suffix c -> is_space w = true ->
  opt_count (c ++ w :: rest) = w :: rest.
Proof.
  intros [->|(ds & Hds & ->)] Hw.
  - simpl. now rewrite space_not_comma.
  - simpl. rewrite digits1_run; auto.
    simpl. now apply space_not_digit.
Qed.

(** Whatever [opt_count] consumed is an optional count. *)
Lemma opt_count_spec (s : jsstring) :
  exists c, count_suffix c /\ s = c ++ opt_count s.
Proof.
  destruct s as [|a s]; [exists []; split; [now left | reflexivity]|].
  simpl. destruct (N.eqb_spec a 44) as [->|Ha].
  - destruct (digits1 s) as [[ds rest]|] eqn:E.
    + destruct (digits1_spec _ _ _ E) as (-> & Hd & _).
      exists (44 :: ds). split; [right; now exists ds | reflexivity].
    + exists []. split; [now left | reflexivity].
  - exists []. split; [now left | reflexivity].
Qed.

Lemma lit_spec (p s rest : jsstring) : lit p s = Some rest -> s = p ++ rest.
Proof.
  revert s. induction p as [|a p IH]; intros s H; simpl in H.
  - now inversion H.
  - destruct s as [|b s]; [discriminate|].
    destruct (N.eqb_spec a b) as [->|]; [|discriminate].
    simpl. now rewrite (IH s H).
Qed.

Lemma lit_app (p rest : jsstring) : lit p (p ++ rest) = Some rest.
Proof.
  induction p as [|a p IH]; simpl; [reflexivity|].
  now rewrite N.eqb_refl.
Qed.

Lemma space1_spec (s rest : jsstring) :
  space1 s = Some rest -> exists w, is_space w = true /\ s = w :: rest.
Proof.
  destruct s as [|c s]; simpl; [discriminate|].
  destruct (is_space c) eqn:Hc; [|discriminate].
  intros H. inversion H; subst. now exists c.
Qed.

(** Every way of reading the pattern at the head of [s] is found by the
    greedy reading, with the same groups. *)
Lemma hunk_at_complete (s o n : jsstring) :
  hunk_shape s o n -> hunk_at s = Some (o, n).
Proof.
  intros (w1 & oc & w2 & nc & w3 & tail & H1 & H2 & H3 & Ho & Hn & Hoc & Hnc
          & ->).
  unfold hunk_at. rewrite lit_app. simpl bind. rewrite H1.
  change (str "-" ++ o ++ oc ++ w2 :: str "+" ++ n ++ nc ++ w3 :: str "@@" ++ tail)
    with (45 :: (o ++ oc ++ w2 :: 43 :: (n ++ nc ++ w3 :: str "@@" ++ tail))).
  simpl lit. simpl bind.
  assert (Hstop : forall c w rest, count_suffix c -> is_space w = true ->
            stops_digits (c ++ w :: rest)).
  { intros c w rest [->|(ds & _ & ->)] Hw; simpl;
      [now apply space_not_digit | reflexivity]. }
  rewrite digits1_run by auto. simpl bind.
  rewrite opt_count_skip by auto. simpl space1. rewrite H2. simpl bind.
  rewrite digits1_run by auto. simpl bind.
  rewrite opt_count_skip by auto. simpl space1. rewrite H3. reflexivity.
Qed.

(** What the greedy reading finds is a reading of the pattern. *)
Lemma hunk_at_sound (s o n : jsstring) :
  hunk_at s = Some (o, n) -> hunk_shape s o n.
Proof.
  unfold hunk_at, bind. intros H.
  destruct (lit (str "@@") s) as [s1|] eqn:E1; [|discriminate].
  destruct (space1 s1) as [s2|] eqn:E2; [|discriminate].
  destruct (lit (str "-") s2) as [s3|] eqn:E3; [|discriminate].
  destruct (digits1 s3) as [[o' r1]|] eqn:E4; [|discriminate].
  simpl fst in H; simpl snd in H.
  destruct (space1 (opt_count r1)) as [s4|] eqn:E5; [|discriminate].
  destruct (lit (str "+") s4) as [s5|] eqn:E6; [|discriminate].
  destruct (digits1 s5) as [[n' r2]|] eqn:E7; [|discriminate].
  simpl fst in H; simpl snd in H.
  destruct (space1 (opt_count r2)) as [s6|] eqn:E8; [|discriminate].
  destruct (lit (str "@@") s6) as [s7|] eqn:E9; [|discriminate].
  inversion H; subst o' n'.
  apply lit_spec in E1, E3, E6, E9.
  apply space1_spec in E2 as (w1 & Hw1 & ->).
  apply space1_spec in E5 as (w2 & Hw2 & E5).
  apply space1_spec in E8 as (w3 & Hw3 & E8).
  apply digits1_spec in E4 as (-> & Ho & _).
  apply digits1_spec in E7 as (-> & Hn & _).
  destruct (opt_count_spec r1) as (oc & Hoc & Er1).
  destruct (opt_count_spec r2) as (nc & Hnc & Er2).
  exists w1, oc, w2, nc, w3, s7. repeat split; try assumption;
    try apply Ho; try apply Hn.
  rewrite E1, E3, Er1, E5, E6, Er2, E8, E9. reflexivity.
Qed.

(** The greedy reading decides the language of the pattern, groups
    included: the match at a position, when there is one, is unique. *)
Lemma hunk_at_iff (s o n : jsstring) :
  hunk_at s = Some (o, n) <-> hunk_shape s o n.
Proof. split; [apply hunk_at_sound | apply hunk_at_complete]. Qed.

Lemma hunk_match_none_at (s : jsstring) :
  hunk_match s = None -> hunk_at s = None.
Proof.
  destruct s; cbn [hunk_match]; now destruct (hunk_at _).
Qed.

Lemma hunk_match_head (s : jsstring) (m : jsstring * jsstring) :
  hunk_at s = Some m -> hunk_match s = Some m.
Proof. intros H. destruct s; cbn [hunk_match]; now rewrite H. Qed.

(** A header in the spec's format is a header line whose groups are the two
    start values. *)
Lemma well_formed_header_match (raw o n : jsstring) :
  well_formed_header raw o n ->
  startsWith raw (str "@@") = true /\ hunk_match raw = Some (o, n).
Proof.
  intros (oc & nc & tail & Ho & Hn & Hoc & Hnc & ->). split; [reflexivity|].
  apply hunk_match_head, hunk_at_complete.
  exists 32, oc, 32, nc, 32, tail.
  repeat split; try assumption; try apply Ho; apply Hn.
Qed.

(** * The primitives on sample inputs *)

Example split_nl_keeps_empty_pieces :
  split_nl (join_nl [str "a"; []; str "b"; []]) = [str "a"; []; str "b"; []]
  /\ join_nl [str "a"; []; str "b"; []]
     = [97; 10; 10; 98; 10].
Proof. split; reflexivity. Qed.

Example parseInt_leading_zeros : parseInt (str "0042") = 42.
Proof. reflexivity. Qed.

(** Above 2^53 = 9007199254740992 not every integer is a Number value. *)
Example to_double_rounds_to_nearest_even :
  to_double 9007199254740993 = 9007199254740992
  /\ to_double 9007199254740995 = 9007199254740996
  /\ to_double (2 ^ 1024 - 1) = Infinity
  /\ add1 9007199254740991 = 9007199254740992
  /\ add1 9007199254740992 = 9007199254740992
  /\ add1 Infinity = Infinity
  /\ parseInt (str "9007199254740993") = 9007199254740992.
Proof. vm_compute. repeat split. Qed.

Example String_of_number_prints :
  String_of_number 0 = str "0"
  /\ String_of_number 120 = str "120"
  /\ String_of_number (2 ^ 53) = str "9007199254740992"
  /\ String_of_number (2 ^ 60) = str "1152921504606847000"
  /\ String_of_number (10 ^ 21) = str "1e+21"
  /\ String_of_number (2 ^ 70) = str "1.1805916207174113e+21"
  /\ String_of_number (2 ^ 1024 - 2 ^ 971) = str "1.7976931348623157e+308"
  /\ String_of_number Infinity = str "Infinity".
Proof. vm_compute. repeat split. Qed.

Example pattern_with_counts :
  hunk_match (str "@@ -1,3 +1,4 @@") = Some (str "1", str "1").
Proof. reflexivity. Qed.

Example pattern_without_counts_then_text :
  hunk_match (str "@@ -12 +340 @@ function f() {")
  = Some (str "12", str "340").
Proof. reflexivity. Qed.

Example pattern_any_white_space :
  hunk_match ([64; 64; 9; 45; 49; 160; 43; 50; 8232; 64; 64])
  = Some (str "1", str "2").
Proof. reflexivity. Qed.

Example pattern_needs_closing_marks :
  hunk_match (str "@@ -1,3 +1,4") = None.
Proof. reflexivity. Qed.

Example pattern_needs_single_spaces :
  hunk_match (str "@@  -1,3 +1,4 @@") = None.
Proof. reflexivity. Qed.

Example pattern_needs_digits_after_comma :
  hunk_match (str "@@ -1, +1,4 @@") = None.
Proof. reflexivity. Qed.

(** The pattern is not anchored: it is searched anywhere in the line. *)
Example pattern_found_inside_the_line :
  startsWith (str "@@x@@ -3 +4 @@") (str "@@") = true
  /\ hunk_at (str "@@x@@ -3 +4 @@") = None
  /\ hunk_match (str "@@x@@ -3 +4 @@") = Some (str "3", str "4").
Proof. repeat split. Qed.

(** * Facts on one iteration *)

Lemma startsWith_one (raw : jsstring) (a : char) :
  startsWith raw [a] = true -> raw = a :: slice1 raw.
Proof.
  destruct raw as [|b t]; simpl; [discriminate|].
  rewrite andb_true_r. now intros ->%N.eqb_eq.
Qed.

Lemma body_header (i : nat) (st : counters) (raw : jsstring) :
  startsWith raw (str "@@") = true ->
  body i st raw
  = (match hunk_match raw with
     | Some (m1, m2) => {| oldLine := parseInt m1; newLine := parseInt m2 |}
     | None => st
     end, HunkHeader i raw).
Proof. intros H. unfold body. now rewrite H. Qed.

Lemma body_content (i : nat) (st : counters) (raw : jsstring) :
  startsWith raw (str "@@") = false ->
  body i st raw
  = match line_kind raw with
    | add => ({| oldLine := oldLine st; newLine := add1 (newLine st) |},
              DiffLine i add None (Some (newLine st))
                (first_or_blank raw) (slice1 raw))
    | del => ({| oldLine := add1 (oldLine st); newLine := newLine st |},
              DiffLine i del (Some (oldLine st)) None
                (first_or_blank raw) (slice1 raw))
    | ctx => ({| oldLine := add1 (oldLine st);
                 newLine := add1 (newLine st) |},
              DiffLine i ctx (Some (oldLine st)) (Some (newLine st))
                (first_or_blank raw) raw)
    end.
Proof.
  intros H. unfold body, line_kind. rewrite H.
  destruct (startsWith raw (str "+")); [reflexivity|].
  destruct (startsWith raw (str "-")); reflexivity.
Qed.

Lemma body_key (i : nat) (st : counters) (raw : jsstring) :
  key_index (snd (body i st raw)) = i.
Proof.
  destruct (startsWith raw (str "@@")) eqn:H.
  - now rewrite body_header.
  - rewrite body_content by assumption. now destruct (line_kind raw).
Qed.

Lemma body_source (i : nat) (st : counters) (raw : jsstring) :
  source_line (snd (body i st raw)) = raw.
Proof.
  destruct (startsWith raw (str "@@")) eqn:H.
  - now rewrite body_header.
  - rewrite body_content by assumption. unfold line_kind.
    destruct (startsWith raw (str "+")) eqn:Hp.
    + apply startsWith_one in Hp. simpl. now rewrite Hp at 1 3.
    + destruct (startsWith raw (str "-")) eqn:Hm; [|reflexivity].
      apply startsWith_one in Hm. simpl. now rewrite Hm at 1 3.
Qed.

Lemma rows_from_Forall (P : element -> Prop) :
  (forall i st raw, P (snd (body i st raw))) ->
  forall lines i st, Forall P (rows_from i st lines).
Proof.
  intros HP lines. induction lines as [|raw rest IH]; intros i st; simpl;
    constructor; auto.
Qed.

Lemma body_cells (i : nat) (st : counters) (raw : jsstring) :
  let e := snd (body i st raw) in
  (carries (old_number e), carries (new_number e)) = cells_of_kind (row_kind e)
  /\ (is_header e || carries (old_number e) || carries (new_number e)) = true.
Proof.
  destruct (startsWith raw (str "@@")) eqn:H.
  - rewrite body_header by assumption. now split.
  - rewrite body_content by assumption. destruct (line_kind raw); now split.
Qed.

Lemma body_target (i : nat) (st : counters) (raw : jsstring) :
  let e := snd (body i st raw) in
  resolveCommentTarget e = None
  <-> is_header e = true \/ preferred_number e = Some 0.
Proof.
  destruct (startsWith raw (str "@@")) eqn:H.
  - rewrite body_header by assumption. simpl. tauto.
  - rewrite body_content by assumption.
    destruct (line_kind raw);
      cbn [snd resolveCommentTarget is_header preferred_number new_number
           old_number];
      match goal with
      | |- context [?n =? 0] => destruct (N.eqb_spec n 0) as [E|E]
      end;
      (split;
       [ first [discriminate | intros _; right; now rewrite E]
       | first [reflexivity
               | intros [F|F]; [discriminate | inversion F; contradiction]] ]).
Qed.


Lemma is_content_true (raw : jsstring) :
  is_content raw = true -> startsWith raw (str "@@") = false.
Proof. unfold is_content. now intros H%negb_true_iff. Qed.

Lemma rows_from_keys (lines : list jsstring) :
  forall i st, map key_index (rows_from i st lines) = seq i (length lines).
Proof.
  induction lines as [|raw rest IH]; intros i st; [reflexivity|].
  cbn [rows_from map length seq]. now rewrite body_key, IH.
Qed.

Lemma rows_from_sources (lines : list jsstring) :
  forall i st, map source_line (rows_from i st lines) = lines.
Proof.
  induction lines as [|raw rest IH]; intros i st; [reflexivity|].
  cbn [rows_from map]. now rewrite body_source, IH.
Qed.

(** * Facts on the counters *)

Lemma after_snoc (st : counters) (lines : list jsstring) (raw : jsstring) :
  after st (lines ++ [raw]) = advance (after st lines) raw.
Proof. now rewrite after_app. Qed.

Lemma content_no_reset (raw : jsstring) :
  is_content raw = true -> resets raw = false.
Proof.
  unfold is_content, resets. now destruct (startsWith raw (str "@@")).
Qed.

(** A line that does not reset leaves a counter as it is or applies [+= 1]
    to it. *)
Lemma advance_no_reset (st : counters) (raw : jsstring) :
  resets raw = false ->
  advance st raw
  = {| oldLine := if old_step raw =? 0 then oldLine st
                  else add1 (oldLine st);
       newLine := if new_step raw =? 0 then newLine st
                  else add1 (newLine st) |}.
Proof.
  unfold resets, advance, old_step, new_step, is_content. intros H.
  destruct (startsWith raw (str "@@")) eqn:Hh; simpl negb; cbv iota.
  - rewrite body_header by assumption.
    destruct (hunk_match raw); [discriminate|]. now destruct st.
  - rewrite body_content by assumption. now destruct (line_kind raw).
Qed.

Lemma step_is_0_or_1 (raw : jsstring) :
  (old_step raw = 0 \/ old_step raw = 1)
  /\ (new_step raw = 0 \/ new_step raw = 1).
Proof.
  unfold old_step, new_step. destruct (is_content raw), (line_kind raw); auto.
Qed.

(** While a counter stays at or below 2^53 it counts exactly. *)
Lemma after_old_exact (lines : list jsstring) :
  forall st, forallb (fun raw => negb (resets raw)) lines = true ->
    oldLine st + total old_step lines <= 2 ^ 53 ->
    oldLine (after st lines) = oldLine st + total old_step lines.
Proof.
  induction lines as [|raw rest IH]; intros st H Hb.
  - cbn. now rewrite N.add_0_r.
  - cbn [forallb] in H. apply andb_true_iff in H as [Hr Hrest].
    apply negb_true_iff in Hr.
    change (after st (raw :: rest)) with (after (advance st raw) rest).
    cbn [total fold_right] in Hb |- *. fold (total old_step rest) in Hb |- *.
    assert (E : oldLine (advance st raw) = oldLine st + old_step raw).
    { rewrite advance_no_reset by assumption. cbn [oldLine].
      destruct (step_is_0_or_1 raw) as [[E0|E0] _]; rewrite E0 in *;
        cbn [N.eqb].
      - now rewrite N.add_0_r.
      - apply add1_exact. lia. }
    rewrite IH by (try assumption; rewrite E; lia). rewrite E. lia.
Qed.

Lemma after_new_exact (lines : list jsstring) :
  forall st, forallb (fun raw => negb (resets raw)) lines = true ->
    newLine st + total new_step lines <= 2 ^ 53 ->
    newLine (after st lines) = newLine st + total new_step lines.
Proof.
  induction lines as [|raw rest IH]; intros st H Hb.
  - cbn. now rewrite N.add_0_r.
  - cbn [forallb] in H. apply andb_true_iff in H as [Hr Hrest].
    apply negb_true_iff in Hr.
    change (after st (raw :: rest)) with (after (advance st raw) rest).
    cbn [total fold_right] in Hb |- *. fold (total new_step rest) in Hb |- *.
    assert (E : newLine (advance st raw) = newLine st + new_step raw).
    { rewrite advance_no_reset by assumption. cbn [newLine].
      destruct (step_is_0_or_1 raw) as [_ [E0|E0]]; rewrite E0 in *;
        cbn [N.eqb].
      - now rewrite N.add_0_r.
      - apply add1_exact. lia. }
    rewrite IH by (try assumption; rewrite E; lia). rewrite E. lia.
Qed.

Lemma advance_doubles (st : counters) (raw : jsstring) :
  doubles st -> doubles (advance st raw).
Proof.
  intros [Ho Hn]. unfold advance, doubles.
  destruct (startsWith raw (str "@@")) eqn:Hh.
  - rewrite body_header by assumption.
    destruct (hunk_match raw) as [[o n]|]; [|now split].
    split; apply to_double_fixed.
  - rewrite body_content by assumption.
    destruct (line_kind raw); split; cbn [fst oldLine newLine];
      try assumption; apply to_double_fixed.
Qed.

Lemma after_doubles (lines : list jsstring) :
  forall st, doubles st -> doubles (after st lines).
Proof.
  induction lines as [|raw rest IH]; intros st H; [exact H|].
  apply IH, advance_doubles, H.
Qed.

Lemma init_doubles : doubles init.
Proof. split; reflexivity. Qed.

(** Between two resets the counters never go down. *)
Lemma after_no_reset_mono (lines : list jsstring) :
  forall st, doubles st ->
    forallb (fun raw => negb (resets raw)) lines = true ->
    oldLine st <= oldLine (after st lines)
    /\ newLine st <= newLine (after st lines).
Proof.
  induction lines as [|raw rest IH]; intros st Hd H; [split; apply N.le_refl|].
  cbn [forallb] in H. apply andb_true_iff in H as [Hr Hrest].
  apply negb_true_iff in Hr.
  change (after st (raw :: rest)) with (after (advance st raw) rest).
  destruct (IH (advance st raw) (advance_doubles _ _ Hd) Hrest) as [Io In].
  rewrite advance_no_reset in Io, In |- * by assumption.
  cbn [oldLine newLine] in Io, In. destruct Hd as [Hdo Hdn].
  pose proof (add1_ge _ Hdo). pose proof (add1_ge _ Hdn).
  destruct (old_step raw =? 0), (new_step raw =? 0); split; lia.
Qed.

(** A counter that is at least 1 stays so until the next reset. *)
Lemma after_no_reset_positive (lines : list jsstring) :
  forall st, forallb (fun raw => negb (resets raw)) lines = true ->
    (1 <= oldLine st -> 1 <= oldLine (after st lines))
    /\ (1 <= newLine st -> 1 <= newLine (after st lines)).
Proof.
  induction lines as [|raw rest IH]; intros st H; [now split|].
  cbn [forallb] in H. apply andb_true_iff in H as [Hr Hrest].
  apply negb_true_iff in Hr.
  change (after st (raw :: rest)) with (after (advance st raw) rest).
  destruct (IH (advance st raw) Hrest) as [Io In].
  rewrite advance_no_reset in Io, In |- * by assumption.
  cbn [oldLine newLine] in Io, In.
  pose proof (add1_pos (oldLine st)). pose proof (add1_pos (newLine st)).
  split; intros H1; [apply Io | apply In];
    [destruct (old_step raw =? 0) | destruct (new_step raw =? 0)]; lia.
Qed.

Lemma content_lines_no_reset (lines : list jsstring) :
  forallb is_content lines = true ->
  forallb (fun raw => negb (resets raw)) lines = true.
Proof.
  rewrite !forallb_forall. intros H raw Hin.
  now rewrite content_no_reset by auto.
Qed.

Lemma firstn_le_split {A : Type} (j : nat) :
  forall (l : list A) k, (j <= k)%nat ->
    firstn k l = firstn j l ++ firstn (k - j) (skipn j l).
Proof.
  induction j as [|j IH]; intros l k Hjk.
  - now rewrite Nat.sub_0_r.
  - destruct k as [|k]; [lia|]. destruct l as [|a l]; simpl.
    + now rewrite firstn_nil.
    + now rewrite <- IH by lia.
Qed.

Lemma forallb_firstn_skipn {A : Type} (f : A -> bool) (l : list A)
  (j n : nat) :
  forallb f l = true -> forallb f (firstn n (skipn j l)) = true.
Proof.
  rewrite !forallb_forall. intros H x Hin. apply H.
  rewrite <- (firstn_skipn j l). apply in_or_app. right.
  rewrite <- (firstn_skipn n (skipn j l)). apply in_or_app. now left.
Qed.

Lemma nth_error_firstn_S {A : Type} (l : list A) :
  forall k x, nth_error l k = Some x -> firstn (S k) l = firstn k l ++ [x].
Proof.
  induction l as [|a l IH]; intros [|k] x H; simpl in *; try discriminate.
  - now inversion H.
  - now rewrite <- (IH k x H).
Qed.

Lemma total_zero_without_content (f : jsstring -> N) (lines : list jsstring) :
  (forall raw, is_content raw = false -> f raw = 0) ->
  forallb (fun raw => negb (is_content raw)) lines = true ->
  total f lines = 0.
Proof.
  intros Hf. induction lines as [|raw rest IH]; [reflexivity|].
  cbn [forallb total fold_right]. intros [Hr Hrest]%andb_true_iff.
  apply negb_true_iff in Hr. fold (total f rest).
  now rewrite Hf, IH.
Qed.

(** * Rows and lines *)

(** The row of line [raw], met after the lines [pre]. *)
Lemma row_at (patch : jsstring) (pre : list jsstring) (raw : jsstring)
  (post : list jsstring) :
  split_nl patch = pre ++ raw :: post ->
  nth_error (DiffViewer patch) (length pre) = Some (row_of pre raw).
Proof.
  intros H. unfold row_of. rewrite DiffViewer_rows, H, rows_from_nth.
  now rewrite Nat.add_0_r.
Qed.

(** * The properties of the specification *)

(** ** C1: one row per line *)

(** C1.  For every patch, [DiffViewer] pushes exactly one row per line of
    [patch.split("\n")], in input order: there are as many rows as lines (one
    more than the line feeds of the patch, and the lines joined give the
    patch back); the React keys of the rows carry the indices 0, 1, 2, ... of
    the lines; the lines can be read back from the rows, in order; and row
    [k] is the one the loop body builds from line [k] with the counters left
    by the lines before it. *)
Theorem DiffViewer_one_row_per_line (patch : jsstring) :
  length (DiffViewer patch) = length (split_nl patch)
  /\ join_nl (split_nl patch) = patch
  /\ length (split_nl patch) = S (count_occ N.eq_dec patch 10)
  /\ map key_index (DiffViewer patch) = seq 0 (length (split_nl patch))
  /\ map source_line (DiffViewer patch) = split_nl patch
  /\ forall k raw, nth_error (split_nl patch) k = Some raw ->
       nth_error (DiffViewer patch) k
       = Some (snd (body k (after init (firstn k (split_nl patch))) raw)).
Proof.
  rewrite DiffViewer_rows.
  repeat match goal with |- _ /\ _ => split end.
  - apply rows_from_length.
  - apply join_split_nl.
  - apply split_nl_length.
  - apply rows_from_keys.
  - apply rows_from_sources.
  - intros k raw Hk.
    destruct (nth_error_split_at _ _ _ Hk) as [E L].
    pose proof (row_at patch _ _ _ E) as R. unfold row_of in R.
    now rewrite L, DiffViewer_rows in R.
Qed.

Lemma DiffViewer_one_row_per_line_witness :
  nth_error (split_nl (join_nl [str "+a"; str "-b"])) 1 = Some (str "-b")
  /\ nth_error (DiffViewer (join_nl [str "+a"; str "-b"])) 1
     = Some (DiffLine 1 del (Some 0) None (str "-") (str "b")).
Proof.
  split; [reflexivity|].
  destruct (DiffViewer_one_row_per_line (join_nl [str "+a"; str "-b"]))
    as (_ & _ & _ & _ & _ & H).
  exact (H 1%nat (str "-b") eq_refl).
Defined.

(** ** C2: the end-to-end scenario *)

(** C2, as stated, fails: on the scenario the deletion row is numbered old=2
    (not 1), the last context row old=3 (not 2), and the context rows show
    [" line one"] and [" line four"] with their leading blank. *)
Lemma scenario_not_as_claimed :
  map view (DiffViewer scenario) <> scenario_claimed
  /\ option_map old_number (nth_error (DiffViewer scenario) 2) = Some (Some 2)
  /\ option_map old_number (nth_error (DiffViewer scenario) 5) = Some (Some 3)
  /\ option_map display_text (nth_error (DiffViewer scenario) 1)
     = Some (str " line one").
Proof.
  split; [|repeat split; reflexivity].
  intros H. apply (f_equal (fun l => option_map (fun v => snd (fst (fst v)))
                                       (nth_error l 2))) in H.
  vm_compute in H. discriminate H.
Qed.

(** C2, amended.  The scenario gives, in order: a header row, after which the
    counters are old=1,new=1; context old=1,new=1 showing [" line one"];
    deletion old=2 showing ["line two"]; addition new=2 showing
    ["line two modified"]; addition new=3 showing ["line three new"]; context
    old=3,new=4 showing [" line four"]; and the addition row carrying new=2
    resolves to comment target 2. *)
Theorem scenario_end_to_end :
  length (split_nl scenario) = 6%nat
  /\ map view (DiffViewer scenario) = scenario_rows
  /\ after init [str "@@ -1,3 +1,4 @@"] = {| oldLine := 1; newLine := 1 |}
  /\ exists e, nth_error (DiffViewer scenario) 3 = Some e
       /\ row_kind e = addition /\ new_number e = Some 2
       /\ resolveCommentTarget e = Some 2.
Proof.
  do 3 (split; [reflexivity|]).
  eexists. split; [reflexivity|]. repeat split.
Qed.

(** ** C3: which numbers a row carries *)

(** C3.  Every row [DiffViewer] emits, for every patch: an addition row has a
    new number and no old number, a deletion row an old number and no new
    number, a context row both, a header row neither; so every row that is
    not a header has at least one of the two. *)
Theorem rows_carry_numbers_of_their_kind (patch : jsstring) :
  Forall (fun e =>
            (carries (old_number e), carries (new_number e))
            = cells_of_kind (row_kind e)
            /\ (is_header e || carries (old_number e)
                || carries (new_number e)) = true)
         (DiffViewer patch).
Proof.
  rewrite DiffViewer_rows. apply rows_from_Forall. intros i st raw.
  apply body_cells.
Qed.

(** ** C4: how the counters move inside a hunk *)

(** C4, as stated, fails: after the header
    [@@ -9007199254740992 +9007199254740992 @@] the context line [" x"]
    leaves both counters where they were (2^53 + 1 is not a double, and
    [+= 1] rounds back to 2^53), so the next row shows the same numbers. *)
Lemma counters_stall_at_two_to_the_53 :
  is_content (str " x") = true
  /\ line_kind (str " x") = ctx
  /\ after init [str "@@ -9007199254740992 +9007199254740992 @@"; str " x"]
     = after init [str "@@ -9007199254740992 +9007199254740992 @@"]
  /\ option_map view
       (nth_error
          (DiffViewer
             (join_nl [str "@@ -9007199254740992 +9007199254740992 @@";
                       str " x"; str " y"])) 1)
     = Some (context, Some 9007199254740992, Some 9007199254740992,
             str " x")
  /\ option_map view
       (nth_error
          (DiffViewer
             (join_nl [str "@@ -9007199254740992 +9007199254740992 @@";
                       str " x"; str " y"])) 2)
     = Some (context, Some 9007199254740992, Some 9007199254740992,
             str " y").
Proof. vm_compute. repeat split. Qed.

(** C4, amended.  Take any patch and any run of its lines free of header
    lines (the lines [pre] before it may hold headers).  Each line of the run
    applies [+= 1] once to the counters of its kind: an addition to the new
    counter only, a deletion to the old counter only, a context line to both;
    as long as the counter is below 2^53 = 9007199254740992 that adds exactly
    1.  Its row shows the counters as they were before the move.  Along the
    run both counters never decrease. *)
Theorem counters_advance_by_kind (patch : jsstring)
  (pre run post : list jsstring) :
  split_nl patch = pre ++ run ++ post ->
  forallb is_content run = true ->
  (forall k raw, nth_error run k = Some raw ->
     let before := after init (pre ++ firstn k run) in
     let moved := after init (pre ++ firstn (S k) run) in
     moved = match line_kind raw with
             | add => {| oldLine := oldLine before;
                         newLine := add1 (newLine before) |}
             | del => {| oldLine := add1 (oldLine before);
                         newLine := newLine before |}
             | ctx => {| oldLine := add1 (oldLine before);
                         newLine := add1 (newLine before) |}
             end
     /\ (oldLine before < 2 ^ 53 -> add1 (oldLine before) = oldLine before + 1)
     /\ (newLine before < 2 ^ 53 -> add1 (newLine before) = newLine before + 1)
     /\ exists e, nth_error (DiffViewer patch) (length pre + k) = Some e
          /\ is_header e = false
          /\ old_number e = match line_kind raw with
                            | add => None
                            | _ => Some (oldLine before)
                            end
          /\ new_number e = match line_kind raw with
                            | del => None
                            | _ => Some (newLine before)
                            end)
  /\ (forall j k, (j <= k)%nat ->
        oldLine (after init (pre ++ firstn j run))
        <= oldLine (after init (pre ++ firstn k run))
        /\ newLine (after init (pre ++ firstn j run))
           <= newLine (after init (pre ++ firstn k run))).
Proof.
  intros Hsplit Hrun. split.
  - intros k raw Hk before moved. subst before moved.
    assert (Hc : startsWith raw (str "@@") = false).
    { rewrite forallb_forall in Hrun.
      apply nth_error_In in Hk. apply Hrun in Hk.
      unfold is_content in Hk. now apply negb_true_iff in Hk. }
    split; [|split; [apply add1_exact | split; [apply add1_exact|]]].
    + rewrite (nth_error_firstn_S _ _ _ Hk), app_assoc, after_app.
      change (after ?s [raw]) with (advance s raw).
      unfold advance. rewrite body_content by assumption.
      now destruct (line_kind raw).
    + destruct (nth_error_split_at _ _ _ Hk) as [E L].
      assert (Hs : split_nl patch
                   = (pre ++ firstn k run) ++ raw :: (skipn (S k) run ++ post)).
      { rewrite Hsplit, E at 1. now rewrite <- !app_assoc. }
      pose proof (row_at patch _ _ _ Hs) as R. unfold row_of in R.
      rewrite length_app, L in R.
      eexists. split; [exact R|].
      rewrite body_content by assumption.
      now destruct (line_kind raw).
  - intros j k Hjk.
    rewrite (firstn_le_split j run k Hjk), app_assoc.
    rewrite (after_app init (pre ++ firstn j run)).
    apply after_no_reset_mono.
    + apply after_doubles, init_doubles.
    + apply content_lines_no_reset, forallb_firstn_skipn, Hrun.
Qed.

Lemma counters_advance_by_kind_witness :
  split_nl (join_nl [str "@@ -3 +7 @@"; str "+a"; str "-b"; str " c"])
  = [str "@@ -3 +7 @@"] ++ [str "+a"; str "-b"; str " c"] ++ []
  /\ forallb is_content [str "+a"; str "-b"; str " c"] = true
  /\ after init ([str "@@ -3 +7 @@"] ++ firstn 2 [str "+a"; str "-b"; str " c"])
     = {| oldLine := 4; newLine := 8 |}.
Proof.
  split; [reflexivity|]. split; [reflexivity|].
  destruct (counters_advance_by_kind
              (join_nl [str "@@ -3 +7 @@"; str "+a"; str "-b"; str " c"])
              [str "@@ -3 +7 @@"] [str "+a"; str "-b"; str " c"] []
              eq_refl eq_refl) as [H _].
  destruct (H 1%nat (str "-b") eq_refl) as [Hm _].
  exact Hm.
Defined.

(** ** C7: the line a click resolves to *)

(** C7, as stated, fails: the only row of the patch ["+x"] is an addition
    row whose new number is present (it is 0); it is not a header row, and
    yet the click resolves to no value instead of the new number.  Likewise
    the context row after [@@ -3 +0 @@] carries old=3 and new=0 and resolves
    to no value. *)
Lemma zero_numbered_row_has_no_target :
  (exists e, nth_error (DiffViewer (str "+x")) 0 = Some e
     /\ is_header e = false
     /\ new_number e = Some 0
     /\ resolveCommentTarget e = None
     /\ resolveCommentTarget e <> new_number e)
  /\ (exists e,
        nth_error (DiffViewer (join_nl [str "@@ -3 +0 @@"; str " x"])) 1
        = Some e
        /\ is_header e = false
        /\ old_number e = Some 3 /\ new_number e = Some 0
        /\ resolveCommentTarget e = None).
Proof.
  split; eexists; (split; [reflexivity|]); repeat split; discriminate.
Qed.

(** C7, amended.  For every rendered row the click resolves to the preferred
    number of the row (the new number when present, else the old number)
    provided that number is not 0, and to no value otherwise; a new number 0
    does not fall back to the old number.  Among the rows [DiffViewer] emits,
    no value is reached exactly for the header rows and for the content rows
    whose preferred number is 0.  Whenever there is no value the click leaves
    the caller's state alone: [onPickLine] is not called, nothing is raised;
    otherwise it calls [onPickLine] with the resolved line. *)
Theorem resolveCommentTarget_prefers_new :
  (forall e,
     resolveCommentTarget e
     = match preferred_number e with
       | Some ln => if ln =? 0 then None else Some ln
       | None => None
       end)
  /\ (forall patch,
        Forall (fun e => resolveCommentTarget e = None
                         <-> is_header e = true \/ preferred_number e = Some 0)
               (DiffViewer patch))
  /\ (forall (S : Type) (onPickLine : N -> S -> S) e s,
        (resolveCommentTarget e = None /\ onClick onPickLine e s = s)
        \/ (exists ln, ln <> 0 /\ resolveCommentTarget e = Some ln
                       /\ onClick onPickLine e s = onPickLine ln s)).
Proof.
  split; [|split].
  - intros [i raw|i ty [o|] [n|] sign content]; reflexivity.
  - intros patch. rewrite DiffViewer_rows. apply rows_from_Forall.
    intros i st raw. apply body_target.
  - intros S onPickLine e s. unfold onClick.
    destruct (resolveCommentTarget e) as [ln|] eqn:E; [right | now left].
    exists ln. repeat split.
    destruct e as [i raw|i ty o n sign content]; [discriminate|].
    cbn [resolveCommentTarget] in E.
    match type of E with
    | (if ?x =? 0 then _ else _) = _ =>
        destruct (N.eqb_spec x 0); [discriminate | congruence]
    end.
Qed.

(** ** C9: determinism *)

(** C9.  A call of [DiffViewer] starts from zeroed counters and an empty
    array and reads nothing but its patch; so when the same patch is
    rendered twice in one pass, whatever patches are rendered before, between
    and after, the two outputs are the same sequence of rows. *)
Theorem DiffViewer_deterministic (patch : jsstring)
  (before between later : list jsstring) :
  DiffViewer patch
  = snd (loop 0 {| oldLine := 0; newLine := 0 |} [] (split_nl patch))
  /\ let outputs :=
       render_files (before ++ patch :: between ++ patch :: later) in
     nth_error outputs (length before) = Some (DiffFileBlock patch)
     /\ nth_error outputs (length before + S (length between))
        = Some (DiffFileBlock patch).
Proof.
  split; [reflexivity|]. unfold render_files. cbn zeta.
  rewrite map_app. cbn [map]. rewrite map_app. cbn [map]. split.
  - rewrite nth_error_app2 by (rewrite length_map; apply Nat.le_refl).
    now rewrite length_map, Nat.sub_diag.
  - rewrite nth_error_app2 by (rewrite length_map; lia).
    rewrite length_map.
    replace (length before + S (length between) - length before)%nat
      with (S (length between)) by lia.
    cbn [nth_error].
    rewrite nth_error_app2 by (rewrite length_map; apply Nat.le_refl).
    now rewrite length_map, Nat.sub_diag.
Qed.


(** ** One line of a patch: C5, C6, C8 and C10 *)

Section Line_in_patch.

(** A patch, one of its lines [raw], the lines [pre] before it and the lines
    [post] after it. *)
Variables (patch : jsstring) (pre : list jsstring) (raw : jsstring)
  (post : list jsstring).
Hypothesis Hsplit : split_nl patch = pre ++ raw :: post.

Lemma row_here :
  nth_error (DiffViewer patch) (length pre) = Some (row_of pre raw).
Proof. exact (row_at _ _ _ _ Hsplit). Qed.

Lemma rows_later (k : nat) (c : jsstring) :
  nth_error post k = Some c ->
  nth_error (DiffViewer patch) (S (length pre + k))
  = Some (snd (body (S (length pre + k))
                 (after (after init (pre ++ [raw])) (firstn k post)) c)).
Proof.
  intros Hk. destruct (nth_error_split_at _ _ _ Hk) as [E L].
  assert (Hs : split_nl patch
               = ((pre ++ [raw]) ++ firstn k post) ++ c :: skipn (S k) post).
  { rewrite Hsplit, E at 1. now rewrite <- !app_assoc. }
  pose proof (row_at _ _ _ _ Hs) as R. unfold row_of in R.
  rewrite !length_app, L, after_app in R. simpl length in R.
  now replace (length pre + 1 + k)%nat with (S (length pre + k)) in R by lia.
Qed.

(** C5, amended.  (1) A header line in the format
    [@@ -oldStart[,oldCount] +newStart[,newCount] @@] is emitted as a header
    row and leaves the counters at what [parseInt] reads from the two
    declared starts, whatever they were before: exactly the declared values
    when these are at most 2^53 = 9007199254740992, the nearest double
    beyond; a context line right after it is numbered with these values.
    (2) In particular a context line right after [@@ -10,5 +20,5 @@] carries
    old=10 and new=20.  (3) A row that is not a header row never resets: its
    line leaves each counter as it is or applies [+= 1] to it. *)
Theorem hunk_header_sets_counters :
  (forall o n,
     well_formed_header raw o n ->
     nth_error (DiffViewer patch) (length pre)
     = Some (HunkHeader (length pre) raw)
     /\ after init (pre ++ [raw])
        = {| oldLine := parseInt o; newLine := parseInt n |}
     /\ (decimal_value o <= 2 ^ 53 -> parseInt o = decimal_value o)
     /\ (decimal_value n <= 2 ^ 53 -> parseInt n = decimal_value n)
     /\ forall c rest, post = c :: rest ->
          is_content c = true -> line_kind c = ctx ->
          nth_error (DiffViewer patch) (S (length pre))
          = Some (DiffLine (S (length pre)) ctx
                    (Some (parseInt o)) (Some (parseInt n))
                    (first_or_blank c) c))
  /\ (raw = str "@@ -10,5 +20,5 @@" ->
      forall c rest, post = c :: rest ->
        is_content c = true -> line_kind c = ctx ->
        exists e, nth_error (DiffViewer patch) (S (length pre)) = Some e
          /\ row_kind e = context
          /\ old_number e = Some 10 /\ new_number e = Some 20)
  /\ (forall e,
        nth_error (DiffViewer patch) (length pre) = Some e ->
        is_header e = false ->
        after init (pre ++ [raw])
        = {| oldLine := if old_step raw =? 0 then oldLine (after init pre)
                        else add1 (oldLine (after init pre));
             newLine := if new_step raw =? 0 then newLine (after init pre)
                        else add1 (newLine (after init pre)) |}).
Proof.
  assert (Hreset : forall o n, well_formed_header raw o n ->
            forall i st, body i st raw
                         = ({| oldLine := parseInt o; newLine := parseInt n |},
                            HunkHeader i raw)).
  { intros o n Hwf i st.
    destruct (well_formed_header_match _ _ _ Hwf) as [Hh Hm].
    now rewrite body_header, Hm by assumption. }
  assert (Hafter : forall o n, well_formed_header raw o n ->
            after init (pre ++ [raw])
            = {| oldLine := parseInt o; newLine := parseInt n |}).
  { intros o n Hwf. rewrite after_snoc. unfold advance.
    now rewrite (Hreset _ _ Hwf). }
  assert (Hctx : forall o n c rest, well_formed_header raw o n ->
            post = c :: rest -> is_content c = true -> line_kind c = ctx ->
            nth_error (DiffViewer patch) (S (length pre))
            = Some (DiffLine (S (length pre)) ctx
                      (Some (parseInt o)) (Some (parseInt n))
                      (first_or_blank c) c)).
  { intros o n c rest Hwf Hpost Hc Hk.
    pose proof (rows_later 0 c) as R. rewrite Hpost in R.
    specialize (R eq_refl). rewrite Nat.add_0_r in R.
    rewrite R. cbn [firstn after fold_left]. fold (after init (pre ++ [raw])).
    rewrite (Hafter _ _ Hwf), body_content by now apply is_content_true.
    now rewrite Hk. }
  split; [|split].
  - intros o n Hwf. split; [|split; [|split; [|split]]].
    + rewrite row_here. unfold row_of. now rewrite (Hreset _ _ Hwf).
    + exact (Hafter _ _ Hwf).
    + apply to_double_exact.
    + apply to_double_exact.
    + intros c rest Hpost Hc Hk. exact (Hctx _ _ _ _ Hwf Hpost Hc Hk).
  - intros Hraw c rest Hpost Hc Hk.
    assert (Hwf : well_formed_header raw (str "10") (str "20")).
    { rewrite Hraw. exists (str ",5"), (str ",5"), [].
      repeat split; try discriminate;
        try (right; exists (str "5"); repeat split; discriminate). }
    eexists. split; [exact (Hctx _ _ _ _ Hwf Hpost Hc Hk)|].
    repeat split.
  - intros e He Hne. rewrite row_here in He. injection He as <-.
    unfold row_of in Hne.
    destruct (startsWith raw (str "@@")) eqn:Hh.
    + rewrite body_header in Hne by assumption. discriminate.
    + rewrite after_snoc. apply advance_no_reset, content_no_reset.
      unfold is_content. now rewrite Hh.
Qed.

(** C6.  A line that begins with [@@] and that the pattern does not match is
    harmless: every line of the patch still gets its row, the line itself is
    emitted unmodified as a header row, both counters keep the values they
    had (they are not put back to 0), and the rows of the lines after it are
    those the loop builds from the unchanged counters. *)
Theorem malformed_header_keeps_counters :
  startsWith raw (str "@@") = true ->
  hunk_match raw = None ->
  length (DiffViewer patch) = length (split_nl patch)
  /\ nth_error (DiffViewer patch) (length pre)
     = Some (HunkHeader (length pre) raw)
  /\ after init (pre ++ [raw]) = after init pre
  /\ forall k c, nth_error post k = Some c ->
       nth_error (DiffViewer patch) (S (length pre + k))
       = Some (snd (body (S (length pre + k))
                      (after (after init pre) (firstn k post)) c)).
Proof.
  intros Hh Hm.
  assert (Hb : forall i st, body i st raw = (st, HunkHeader i raw))
    by (intros; now rewrite body_header, Hm by assumption).
  assert (Ha : after init (pre ++ [raw]) = after init pre)
    by (rewrite after_snoc; unfold advance; now rewrite Hb).
  split; [now rewrite DiffViewer_rows, rows_from_length|].
  split; [rewrite row_here; unfold row_of; now rewrite Hb|].
  split; [exact Ha|].
  intros k c Hk. rewrite <- Ha. now apply rows_later.
Qed.

(** C8, amended.  The row of a content line that begins with [+] is an
    addition row and shows the line without that [+]; the row of a line that
    begins with [-] is a deletion row and shows the line without that [-];
    the row of any other content line is a context row and shows the raw
    line unchanged (a leading blank is kept). *)
Theorem content_text_strips_plus_and_minus :
  is_content raw = true ->
  exists e, nth_error (DiffViewer patch) (length pre) = Some e
    /\ (startsWith raw (str "+") = true ->
        row_kind e = addition /\ raw = 43 :: display_text e
        /\ display_text e = slice1 raw)
    /\ (startsWith raw (str "+") = false ->
        startsWith raw (str "-") = true ->
        row_kind e = deletion /\ raw = 45 :: display_text e
        /\ display_text e = slice1 raw)
    /\ (startsWith raw (str "+") = false ->
        startsWith raw (str "-") = false ->
        row_kind e = context /\ display_text e = raw)
    /\ match row_kind e with
       | addition => raw = 43 :: display_text e
       | deletion => raw = 45 :: display_text e
       | context => display_text e = raw
       | hunk_header => False
       end.
Proof.
  intros Hc%is_content_true.
  exists (row_of pre raw). split; [exact row_here|]. unfold row_of.
  rewrite body_content by assumption. unfold line_kind.
  destruct (startsWith raw (str "+")) eqn:Hp.
  - pose proof (startsWith_one _ _ Hp).
    repeat split; try discriminate; assumption.
  - destruct (startsWith raw (str "-")) eqn:Hm.
    + pose proof (startsWith_one _ _ Hm).
      repeat split; try discriminate; assumption.
    + repeat split; discriminate.
Qed.

(** C10, amended.  Let a content line come before any header line that the
    pattern matches.  Its row is numbered from counters that started at 0
    and were moved only by the content lines before it (they count these
    lines); it always carries a number.  A click on it is ignored exactly
    when its preferred number (new number, else old number) is 0: so for an
    addition numbered new=0, a deletion numbered old=0 and a context row
    numbered old=0,new=0, and always for the first content line of the
    patch.  When the preferred number is not 0 (the second of two additions,
    say) the click picks that line. *)
Theorem zero_numbered_rows_cannot_anchor :
  forallb (fun l => negb (resets l)) pre = true ->
  is_content raw = true ->
  exists e, nth_error (DiffViewer patch) (length pre) = Some e
    /\ is_header e = false
    /\ old_number e = match line_kind raw with
                      | add => None
                      | _ => Some (oldLine (after init pre))
                      end
    /\ new_number e = match line_kind raw with
                      | del => None
                      | _ => Some (newLine (after init pre))
                      end
    /\ (total old_step pre <= 2 ^ 53 ->
        oldLine (after init pre) = total old_step pre)
    /\ (total new_step pre <= 2 ^ 53 ->
        newLine (after init pre) = total new_step pre)
    /\ (carries (old_number e) || carries (new_number e)) = true
    /\ (resolveCommentTarget e = None <-> preferred_number e = Some 0)
    /\ ((row_kind e = addition /\ new_number e = Some 0)
        \/ (row_kind e = deletion /\ old_number e = Some 0)
        \/ (row_kind e = context /\ old_number e = Some 0
            /\ new_number e = Some 0) ->
        resolveCommentTarget e = None
        /\ (forall selected, onClick setSelectedLine e selected = selected)
        /\ forall (S : Type) (onPickLine : N -> S -> S) s,
             onClick onPickLine e s = s)
    /\ (forall ln, preferred_number e = Some ln -> ln <> 0 ->
        resolveCommentTarget e = Some ln
        /\ forall selected, onClick setSelectedLine e selected = Some ln)
    /\ (forallb (fun l => negb (is_content l)) pre = true ->
        resolveCommentTarget e = None).
Proof.
  intros Hpre Hc%is_content_true.
  exists (row_of pre raw). split; [exact row_here|]. unfold row_of.
  rewrite body_content by assumption.
  assert (Eo : total old_step pre <= 2 ^ 53 ->
               oldLine (after init pre) = total old_step pre)
    by (intros H; now rewrite (after_old_exact pre init Hpre)).
  assert (En : total new_step pre <= 2 ^ 53 ->
               newLine (after init pre) = total new_step pre)
    by (intros H; now rewrite (after_new_exact pre init Hpre)).
  assert (Ho : forallb (fun l => negb (is_content l)) pre = true ->
               oldLine (after init pre) = 0).
  { intros H.
    assert (Z0 : total old_step pre = 0).
    { apply total_zero_without_content; [|assumption].
      intros l Hl. unfold old_step. now rewrite Hl. }
    rewrite Eo; rewrite Z0; [reflexivity|apply N.le_0_l]. }
  assert (Hn : forallb (fun l => negb (is_content l)) pre = true ->
               newLine (after init pre) = 0).
  { intros H.
    assert (Z0 : total new_step pre = 0).
    { apply total_zero_without_content; [|assumption].
      intros l Hl. unfold new_step. now rewrite Hl. }
    rewrite En; rewrite Z0; [reflexivity|apply N.le_0_l]. }
  set (o := oldLine (after init pre)) in *.
  set (n := newLine (after init pre)) in *. clearbody o n.
  destruct (line_kind raw);
    cbn [snd is_header old_number new_number carries row_kind orb
         preferred_number];
    do 3 (split; [reflexivity|]);
    (split; [exact Eo|]); (split; [exact En|]); (split; [reflexivity|]);
    unfold onClick; cbn [resolveCommentTarget];
    (split;
     [ match goal with
       | |- context [?x =? 0] => destruct (N.eqb_spec x 0) as [E|E]
       end; split; congruence
     | split;
       [ intros [[Hk E]|[[Hk E]|[Hk [_ E]]]]; try discriminate Hk;
         injection E as E'; rewrite E'; repeat split
       | split;
         [ intros ln E Hne; injection E as <-;
           rewrite (proj2 (N.eqb_neq _ _) Hne); now split
         | intros Hfirst; rewrite ?(Ho Hfirst), ?(Hn Hfirst); reflexivity ] ] ]).
Qed.

End Line_in_patch.

(** *** Instances *)

(** C5, as stated, fails: the header [@@ -9007199254740993 +1 @@] is in the
    format and declares the old start 9007199254740993 = 2^53 + 1, which is
    not a double; [parseInt] gives 9007199254740992, and the context row that
    follows shows that number. *)
Lemma header_start_beyond_two_to_the_53 :
  well_formed_header (str "@@ -9007199254740993 +1 @@")
    (str "9007199254740993") (str "1")
  /\ decimal_value (str "9007199254740993") = 9007199254740993
  /\ after init [str "@@ -9007199254740993 +1 @@"]
     = {| oldLine := 9007199254740992; newLine := 1 |}
  /\ option_map view
       (nth_error
          (DiffViewer (join_nl [str "@@ -9007199254740993 +1 @@"; str " x"]))
          1)
     = Some (context, Some 9007199254740992, Some 1, str " x").
Proof.
  split.
  { exists [], [], [].
    split; [split; [discriminate | reflexivity]|].
    split; [split; [discriminate | reflexivity]|].
    split; [now left|]. split; [now left | reflexivity]. }
  vm_compute. repeat split.
Qed.

Lemma hunk_header_sets_counters_witness :
  split_nl (join_nl [str "+x"; str "@@ -10,5 +20 @@ fn"; str " y"])
  = [str "+x"] ++ str "@@ -10,5 +20 @@ fn" :: [str " y"]
  /\ well_formed_header (str "@@ -10,5 +20 @@ fn") (str "10") (str "20")
  /\ after init ([str "+x"] ++ [str "@@ -10,5 +20 @@ fn"])
     = {| oldLine := 10; newLine := 20 |}
  /\ nth_error
       (DiffViewer (join_nl [str "+x"; str "@@ -10,5 +20 @@ fn"; str " y"])) 2
     = Some (DiffLine 2 ctx (Some 10) (Some 20) (str " ") (str " y")).
Proof.
  assert (Hwf : well_formed_header (str "@@ -10,5 +20 @@ fn")
                  (str "10") (str "20")).
  { exists (str ",5"), [], (str " fn").
    split; [split; [discriminate | reflexivity]|].
    split; [split; [discriminate | reflexivity]|].
    split; [right; exists (str "5");
            split; [split; [discriminate | reflexivity] | reflexivity]|].
    split; [now left | reflexivity]. }
  split; [reflexivity|]. split; [exact Hwf|].
  destruct (hunk_header_sets_counters
              (join_nl [str "+x"; str "@@ -10,5 +20 @@ fn"; str " y"])
              [str "+x"] (str "@@ -10,5 +20 @@ fn") [str " y"] eq_refl)
    as [H _].
  destruct (H (str "10") (str "20") Hwf) as (_ & Hc & _ & _ & Hnext).
  split; [exact Hc|].
  exact (Hnext (str " y") [] eq_refl eq_refl eq_refl).
Defined.

Lemma malformed_header_keeps_counters_witness :
  split_nl (join_nl [str "@@ -5 +9 @@"; str " a"; str "@@ -x +y @@"; str "+b"])
  = [str "@@ -5 +9 @@"; str " a"] ++ str "@@ -x +y @@" :: [str "+b"]
  /\ startsWith (str "@@ -x +y @@") (str "@@") = true
  /\ hunk_match (str "@@ -x +y @@") = None
  /\ after init ([str "@@ -5 +9 @@"; str " a"] ++ [str "@@ -x +y @@"])
     = {| oldLine := 6; newLine := 10 |}
  /\ nth_error
       (DiffViewer
          (join_nl [str "@@ -5 +9 @@"; str " a"; str "@@ -x +y @@"; str "+b"]))
       3
     = Some (DiffLine 3 add None (Some 10) (str "+") (str "b")).
Proof.
  split; [reflexivity|]. split; [reflexivity|]. split; [reflexivity|].
  destruct (malformed_header_keeps_counters
              (join_nl [str "@@ -5 +9 @@"; str " a"; str "@@ -x +y @@";
                        str "+b"])
              [str "@@ -5 +9 @@"; str " a"] (str "@@ -x +y @@") [str "+b"]
              eq_refl eq_refl eq_refl) as (_ & _ & Ha & Hr).
  split; [exact Ha|]. exact (Hr 0%nat (str "+b") eq_refl).
Defined.

(** C8, as stated, fails: in the scenario the context line [" line one"] is
    shown whole, its leading blank included, not with its first character
    stripped. *)
Lemma context_row_keeps_its_marker :
  nth_error (split_nl scenario) 1 = Some (str " line one")
  /\ exists e, nth_error (DiffViewer scenario) 1 = Some e
       /\ row_kind e = context
       /\ display_text e = str " line one"
       /\ display_text e <> slice1 (str " line one").
Proof.
  split; [reflexivity|].
  eexists. split; [reflexivity|]. repeat split. discriminate.
Qed.

Lemma content_text_strips_plus_and_minus_witness :
  split_nl (join_nl [str "@@ -1 +1 @@"; str "-old"; str "+new"])
  = [str "@@ -1 +1 @@"] ++ str "-old" :: [str "+new"]
  /\ is_content (str "-old") = true
  /\ exists e,
       nth_error
         (DiffViewer (join_nl [str "@@ -1 +1 @@"; str "-old"; str "+new"])) 1
       = Some e
       /\ row_kind e = deletion
       /\ str "-old" = 45 :: display_text e.
Proof.
  split; [reflexivity|]. split; [reflexivity|].
  destruct (content_text_strips_plus_and_minus
              (join_nl [str "@@ -1 +1 @@"; str "-old"; str "+new"])
              [str "@@ -1 +1 @@"] (str "-old") [str "+new"] eq_refl eq_refl)
    as (e & He & _ & Hm & _).
  exists e. split; [exact He|].
  destruct (Hm eq_refl eq_refl) as (Hk & Ht & _).
  split; [exact Hk | exact Ht].
Defined.

(** C10, as stated, fails: in the patch of the two lines [+a] and [+b] no
    line is a header line, so the addition [+b] comes before any matched
    header; its row is numbered new=1 and a click on it picks line 1. *)
Lemma second_addition_before_header_anchors :
  split_nl (join_nl [str "+a"; str "+b"]) = [str "+a"; str "+b"]
  /\ forallb is_content [str "+a"; str "+b"] = true
  /\ exists e,
       nth_error (DiffViewer (join_nl [str "+a"; str "+b"])) 1 = Some e
       /\ row_kind e = addition
       /\ new_number e = Some 1
       /\ resolveCommentTarget e = Some 1
       /\ onClick setSelectedLine e None = Some 1.
Proof.
  split; [reflexivity|]. split; [reflexivity|].
  eexists. split; [reflexivity|]. repeat split.
Qed.

Lemma zero_numbered_rows_cannot_anchor_witness :
  split_nl (join_nl [str "@@ no numbers @@"; str "-gone"; str "+here"])
  = [str "@@ no numbers @@"; str "-gone"] ++ str "+here" :: []
  /\ forallb (fun l => negb (resets l)) [str "@@ no numbers @@"; str "-gone"]
     = true
  /\ is_content (str "+here") = true
  /\ exists e,
       nth_error
         (DiffViewer
            (join_nl [str "@@ no numbers @@"; str "-gone"; str "+here"])) 2
       = Some e
       /\ new_number e = Some 0
       /\ resolveCommentTarget e = None
       /\ onClick setSelectedLine e (Some 7) = Some 7.
Proof.
  split; [reflexivity|]. split; [reflexivity|]. split; [reflexivity|].
  destruct (zero_numbered_rows_cannot_anchor
              (join_nl [str "@@ no numbers @@"; str "-gone"; str "+here"])
              [str "@@ no numbers @@"; str "-gone"] (str "+here") []
              eq_refl eq_refl eq_refl)
    as (e & He & Hh & Hold & Hnew & _ & En & Hcar & _ & Hzero & _).
  exists e. split; [exact He|].
  assert (Hnew0 : new_number e = Some 0).
  { rewrite Hnew. cbn [line_kind]. now rewrite En. }
  split; [exact Hnew0|].
  assert (Hk : row_kind e = addition).
  { vm_compute in He. inversion He. reflexivity. }
  destruct (Hzero (or_introl (conj Hk Hnew0))) as (Hr & Hsel & _).
  split; [exact Hr | exact (Hsel (Some 7))].
Defined.

(** * Further properties of the panel *)

(** ** Numerals and headers *)

Lemma uint_codes_digits (d : Decimal.uint) :
  forallb is_digit (uint_codes d) = true.
Proof. induction d; simpl; auto. Qed.

Lemma decimal_value_uint_acc (d : Decimal.uint) :
  forall acc,
    fold_left (fun a c => 10 * a + (c - 48)) (uint_codes d) (Npos acc)
    = Npos (Pos.of_uint_acc d acc).
Proof.
  induction d; intros acc; cbn [uint_codes fold_left Pos.of_uint_acc];
    [reflexivity | rewrite <- IHd; f_equal; lia ..].
Qed.

Lemma decimal_value_uint (d : Decimal.uint) :
  decimal_value (uint_codes d) = N.of_uint d.
Proof.
  unfold decimal_value, N.of_uint.
  induction d; cbn [uint_codes fold_left Pos.of_uint];
    [reflexivity | exact IHd | rewrite <- decimal_value_uint_acc; f_equal ..].
Qed.

(** The numeral of [n] stands for [n]. *)
Lemma decimal_value_numeral (n : N) : decimal_value (decimal_numeral n) = n.
Proof.
  unfold decimal_numeral. rewrite decimal_value_uint. apply Unsigned.of_to.
Qed.

(** Reading back the numeral of [n] gives the double nearest to [n]. *)
Lemma parseInt_numeral (n : N) : parseInt (decimal_numeral n) = to_double n.
Proof. unfold parseInt. now rewrite decimal_value_numeral. Qed.

Lemma decimal_numeral_digits (n : N) : digits (decimal_numeral n).
Proof.
  split; [|apply uint_codes_digits].
  unfold decimal_numeral. intros H.
  destruct n as [|p]; [discriminate|].
  pose proof (Unsigned.of_to (Npos p)) as E.
  destruct (N.to_uint (Npos p)); try discriminate H.
  discriminate E.
Qed.

(** Below 2^53 [String] prints the numeral of the number. *)
Lemma String_of_number_small (n : N) :
  n < 2 ^ 53 -> String_of_number n = decimal_numeral n.
Proof.
  intros H. unfold String_of_number.
  now rewrite (proj2 (N.ltb_lt _ _) H).
Qed.


Lemma count_text_suffix (c : option N) : count_suffix (count_text c).
Proof.
  destruct c as [k|]; [right | now left].
  exists (decimal_numeral k). split; [apply decimal_numeral_digits|].
  reflexivity.
Qed.

Lemma header_line_well_formed (a : N) (ca : option N) (b : N)
  (cb : option N) (tail : jsstring) :
  well_formed_header (header_line a ca b cb tail)
    (decimal_numeral a) (decimal_numeral b).
Proof.
  exists (count_text ca), (count_text cb), tail.
  repeat split; try apply decimal_numeral_digits;
    try apply count_text_suffix.
Qed.

(** ** The search of the pattern in a line *)

Lemma hunk_match_search (s : jsstring) (m : jsstring * jsstring) :
  hunk_match s = Some m
  <-> exists k, hunk_at (skipn k s) = Some m
                /\ forall j, (j < k)%nat -> hunk_at (skipn j s) = None.
Proof.
  induction s as [|c s IH].
  - cbn [hunk_match]. split.
    + intros H. vm_compute in H. discriminate H.
    + intros (k & Hk & _). rewrite skipn_nil in Hk. now rewrite Hk.
  - cbn [hunk_match]. destruct (hunk_at (c :: s)) as [m'|] eqn:E.
    + split.
      * intros H. exists 0%nat. split; [now rewrite <- H|]. intros j Hj. lia.
      * intros (k & Hk & Hbefore). destruct k as [|k]; [now rewrite <- Hk|].
        specialize (Hbefore 0%nat (Nat.lt_0_succ k)). simpl in Hbefore.
        congruence.
    + rewrite IH. split.
      * intros (k & Hk & Hbefore). exists (S k). split; [exact Hk|].
        intros [|j] Hj; [exact E | apply Hbefore; lia].
      * intros (k & Hk & Hbefore). destruct k as [|k].
        { simpl in Hk. congruence. }
        exists k. split; [exact Hk|].
        intros j Hj. apply (Hbefore (S j)). lia.
Qed.

(** ** Lists *)

Lemma firstn_length_app {A : Type} (a b : list A) :
  firstn (length a) (a ++ b) = a.
Proof. induction a; simpl; [now destruct b | now f_equal]. Qed.

Lemma skipn_length_app {A : Type} (a b : list A) :
  skipn (length a) (a ++ b) = b.
Proof. induction a; simpl; auto. Qed.

Lemma count_from_S (b : N) (m : nat) :
  count_from b (S m) = b :: count_from (b + 1) m.
Proof.
  unfold count_from. cbn [seq map]. rewrite N.add_0_r. f_equal.
  rewrite <- seq_shift, map_map. apply map_ext. intros j. lia.
Qed.

(** ** Hunks *)

Lemma matched_header_body (i : nat) (st : counters) (hdr o n : jsstring) :
  startsWith hdr (str "@@") = true ->
  hunk_match hdr = Some (o, n) ->
  body i st hdr
  = ({| oldLine := parseInt o; newLine := parseInt n |}, HunkHeader i hdr).
Proof. intros Hh Hm. now rewrite body_header, Hm by assumption. Qed.

Lemma resets_matched (hdr : jsstring) :
  resets hdr = true ->
  startsWith hdr (str "@@") = true
  /\ exists o n, hunk_match hdr = Some (o, n).
Proof.
  unfold resets. intros [Hh Hm]%andb_true_iff. split; [exact Hh|].
  destruct (hunk_match hdr) as [[o n]|]; [now exists o, n | discriminate].
Qed.

(** The counters inside a hunk: the starts of its header, moved by the lines
    met since. *)
Lemma hunk_counters (pre : list jsstring) (hdr o n : jsstring)
  (mid : list jsstring) :
  startsWith hdr (str "@@") = true ->
  hunk_match hdr = Some (o, n) ->
  after init (pre ++ hdr :: mid)
  = after {| oldLine := parseInt o; newLine := parseInt n |} mid.
Proof.
  intros Hh Hm. rewrite after_app.
  change (after ?s (hdr :: mid)) with (after (advance s hdr) mid).
  unfold advance at 1. now rewrite (matched_header_body _ _ _ _ _ Hh Hm).
Qed.

Lemma DiffViewer_app (patch : jsstring) (a b : list jsstring) :
  split_nl patch = a ++ b ->
  DiffViewer patch
  = rows_from 0 init a ++ rows_from (length a) (after init a) b.
Proof.
  intros H. now rewrite DiffViewer_rows, H, rows_from_app, Nat.add_0_r.
Qed.

Lemma hunk_rows (patch : jsstring) (pre : list jsstring) (hdr : jsstring)
  (run post : list jsstring) :
  split_nl patch = pre ++ hdr :: run ++ post ->
  rows_after (length pre) (length run) (DiffViewer patch)
  = rows_from (S (length pre)) (advance (after init pre) hdr) run.
Proof.
  intros Hs. unfold rows_after. rewrite (DiffViewer_app _ _ _ Hs).
  cbn [rows_from]. rewrite rows_from_app.
  replace (rows_from 0 init pre
           ++ snd (body (length pre) (after init pre) hdr)
              :: rows_from (S (length pre)) (advance (after init pre) hdr) run
                 ++ rows_from (length run + S (length pre))
                      (after (advance (after init pre) hdr) run) post)
    with ((rows_from 0 init pre
           ++ [snd (body (length pre) (after init pre) hdr)])
          ++ rows_from (S (length pre)) (advance (after init pre) hdr) run
             ++ rows_from (length run + S (length pre))
                  (after (advance (after init pre) hdr) run) post)
    by now rewrite <- app_assoc.
  replace (S (length pre))
    with (length (rows_from 0 init pre
                  ++ [snd (body (length pre) (after init pre) hdr)])) at 1
    by (rewrite length_app, rows_from_length; simpl; lia).
  rewrite skipn_length_app.
  rewrite <- (rows_from_length run (S (length pre))
                (advance (after init pre) hdr)) at 1.
  apply firstn_length_app.
Qed.

Lemma hunk_row (patch : jsstring) (pre : list jsstring)
  (hdr o n : jsstring) (run post : list jsstring) (k : nat)
  (raw : jsstring) :
  split_nl patch = pre ++ hdr :: run ++ post ->
  startsWith hdr (str "@@") = true ->
  hunk_match hdr = Some (o, n) ->
  nth_error run k = Some raw ->
  nth_error (DiffViewer patch) (S (length pre + k))
  = Some (snd (body (S (length pre + k))
                 (after {| oldLine := parseInt o; newLine := parseInt n |}
                    (firstn k run))
                 raw)).
Proof.
  intros Hs Hh Hm Hk.
  destruct (nth_error_split_at _ _ _ Hk) as [E L].
  assert (Hs' : split_nl patch
                = (pre ++ hdr :: firstn k run)
                  ++ raw :: (skipn (S k) run ++ post)).
  { rewrite Hs, E at 1. rewrite <- !app_assoc. reflexivity. }
  pose proof (row_at _ _ _ _ Hs') as R. unfold row_of in R.
  rewrite length_app in R. cbn [length] in R. rewrite L in R.
  rewrite (hunk_counters pre hdr o n (firstn k run) Hh Hm) in R.
  now replace (length pre + S k)%nat with (S (length pre + k)) in R by lia.
Qed.

Lemma forallb_firstn {A : Type} (f : A -> bool) (l : list A) (k : nat) :
  forallb f l = true -> forallb f (firstn k l) = true.
Proof. exact (forallb_firstn_skipn f l 0 k). Qed.

Lemma body_numbers (i : nat) (st : counters) (raw : jsstring) :
  resets raw = false ->
  old_number (snd (body i st raw))
  = (if old_step raw =? 0 then None else Some (oldLine st))
  /\ new_number (snd (body i st raw))
     = (if new_step raw =? 0 then None else Some (newLine st)).
Proof.
  unfold resets, old_step, new_step, is_content. intros H.
  destruct (startsWith raw (str "@@")) eqn:Hh.
  - rewrite body_header by assumption. now split.
  - rewrite body_content by assumption. now destruct (line_kind raw).
Qed.

(** While the counter stays at or below 2^53 a column counts up. *)
Lemma shown_old_column (run : list jsstring) :
  forall i st, forallb (fun l => negb (resets l)) run = true ->
    oldLine st + total old_step run <= 2 ^ 53 ->
    shown_old (rows_from i st run)
    = count_from (oldLine st) (N.to_nat (total old_step run)).
Proof.
  induction run as [|raw rest IH]; intros i st H Hb; [reflexivity|].
  cbn [forallb] in H. apply andb_true_iff in H as [Hr Hrest].
  apply negb_true_iff in Hr.
  cbn [total fold_right] in Hb |- *. fold (total old_step rest) in Hb |- *.
  destruct (body_numbers i st raw Hr) as [Eo _].
  unfold shown_old in *. cbn [rows_from flat_map]. rewrite Eo.
  rewrite (IH (S i) (advance st raw) Hrest);
    rewrite (advance_no_reset st raw Hr); cbn [oldLine];
    destruct (step_is_0_or_1 raw) as [[E0|E0] _]; rewrite E0 in *;
    cbn [N.eqb app]; rewrite ?add1_exact by lia; try lia.
  - now rewrite N.add_0_l.
  - replace (N.to_nat (1 + total old_step rest))
      with (S (N.to_nat (total old_step rest))) by lia.
    now rewrite count_from_S.
Qed.

Lemma shown_new_column (run : list jsstring) :
  forall i st, forallb (fun l => negb (resets l)) run = true ->
    newLine st + total new_step run <= 2 ^ 53 ->
    shown_new (rows_from i st run)
    = count_from (newLine st) (N.to_nat (total new_step run)).
Proof.
  induction run as [|raw rest IH]; intros i st H Hb; [reflexivity|].
  cbn [forallb] in H. apply andb_true_iff in H as [Hr Hrest].
  apply negb_true_iff in Hr.
  cbn [total fold_right] in Hb |- *. fold (total new_step rest) in Hb |- *.
  destruct (body_numbers i st raw Hr) as [_ En].
  unfold shown_new in *. cbn [rows_from flat_map]. rewrite En.
  rewrite (IH (S i) (advance st raw) Hrest);
    rewrite (advance_no_reset st raw Hr); cbn [newLine];
    destruct (step_is_0_or_1 raw) as [_ [E0|E0]]; rewrite E0 in *;
    cbn [N.eqb app]; rewrite ?add1_exact by lia; try lia.
  - now rewrite N.add_0_l.
  - replace (N.to_nat (1 + total new_step rest))
      with (S (N.to_nat (total new_step rest))) by lia.
    now rewrite count_from_S.
Qed.

Lemma body_rekey (d i : nat) (st : counters) (raw : jsstring) :
  body (d + i) st raw
  = (fst (body i st raw), rekey d (snd (body i st raw))).
Proof.
  destruct (startsWith raw (str "@@")) eqn:H.
  - now rewrite !body_header by assumption.
  - rewrite !body_content by assumption. now destruct (line_kind raw).
Qed.

Lemma rows_from_rekey (d : nat) (lines : list jsstring) :
  forall i st,
    rows_from (d + i) st lines = map (rekey d) (rows_from i st lines).
Proof.
  induction lines as [|raw rest IH]; intros i st; [reflexivity|].
  cbn [rows_from map]. rewrite body_rekey. cbn [snd]. f_equal.
  now rewrite <- IH, Nat.add_succ_r.
Qed.

Lemma rows_from_reset (hdr : jsstring) (rest : list jsstring) (i : nat)
  (st st' : counters) :
  resets hdr = true ->
  rows_from i st (hdr :: rest) = rows_from i st' (hdr :: rest).
Proof.
  intros (Hh & o & n & Hm)%resets_matched. cbn [rows_from]. unfold advance.
  now rewrite !(matched_header_body _ _ _ _ _ Hh Hm).
Qed.

Lemma split_nl_lf_free (s : jsstring) :
  Forall (fun l => ~ In 10 l) (split_nl s).
Proof.
  induction s as [|c s IH]; [repeat constructor; auto|].
  rewrite split_nl_cons. pose proof (split_nl_not_nil s) as Hne.
  destruct (N.eqb_spec c 10) as [->|Hc].
  - constructor; auto.
  - destruct (split_nl s) as [|p ps]; [contradiction|].
    inversion IH as [|? ? Hp Hps]; subst. constructor; [|exact Hps].
    cbn [hd]. intros [E|Hin]; [now apply Hc | now apply Hp].
Qed.

Lemma split_nl_snoc_lf (s : jsstring) :
  split_nl (s ++ [10]) = split_nl s ++ [[]].
Proof.
  induction s as [|c s IH]; [reflexivity|].
  change ((c :: s) ++ [10]) with (c :: (s ++ [10])).
  rewrite !split_nl_cons, IH. pose proof (split_nl_not_nil s) as Hne.
  destruct (c =? 10); [reflexivity|].
  destruct (split_nl s); [contradiction | reflexivity].
Qed.

Lemma Forall_app_r {A : Type} (P : A -> Prop) (a b : list A) :
  Forall P (a ++ b) -> Forall P b.
Proof. intros H. now apply Forall_app in H as [_ H]. Qed.

(** ** X1: line numbers inside a hunk *)

(** X1.  Inside a hunk (the lines after a header line the pattern matches, up
    to the next such header) the row of a content line shows the start
    declared by the header plus the number of earlier lines of the hunk that
    belong to that side of the diff: old start + earlier deletion and
    context lines in the old column, new start + earlier addition and
    context lines in the new column, each as long as that sum is at most
    2^53 = 9007199254740992 (up to there the counters are exact).  Header
    lines the pattern does not match, met on the way, count for nothing. *)
Theorem hunk_rows_number_from_the_header (patch : jsstring)
  (pre : list jsstring) (hdr o n : jsstring) (run post : list jsstring)
  (k : nat) (raw : jsstring) :
  split_nl patch = pre ++ hdr :: run ++ post ->
  startsWith hdr (str "@@") = true ->
  hunk_match hdr = Some (o, n) ->
  forallb (fun l => negb (resets l)) run = true ->
  nth_error run k = Some raw ->
  is_content raw = true ->
  exists e, nth_error (DiffViewer patch) (S (length pre + k)) = Some e
    /\ (decimal_value o + total old_step (firstn k run) <= 2 ^ 53 ->
        old_number e
        = match line_kind raw with
          | add => None
          | _ => Some (decimal_value o + total old_step (firstn k run))
          end)
    /\ (decimal_value n + total new_step (firstn k run) <= 2 ^ 53 ->
        new_number e
        = match line_kind raw with
          | del => None
          | _ => Some (decimal_value n + total new_step (firstn k run))
          end).
Proof.
  intros Hs Hh Hm Hrun Hk Hc%is_content_true.
  eexists. split; [exact (hunk_row _ _ _ _ _ _ _ _ _ Hs Hh Hm Hk)|].
  rewrite body_content by assumption.
  pose proof (forallb_firstn _ _ k Hrun) as Hrun'.
  split; intros Hb.
  - assert (E : parseInt o = decimal_value o) by (apply to_double_exact; lia).
    pose proof (after_old_exact (firstn k run)
                  {| oldLine := parseInt o; newLine := parseInt n |} Hrun')
      as A.
    cbn [oldLine] in A. rewrite <- E in Hb. specialize (A Hb).
    destruct (line_kind raw); cbn [snd old_number];
      now rewrite ?A, <- ?E.
  - assert (E : parseInt n = decimal_value n) by (apply to_double_exact; lia).
    pose proof (after_new_exact (firstn k run)
                  {| oldLine := parseInt o; newLine := parseInt n |} Hrun')
      as A.
    cbn [newLine] in A. rewrite <- E in Hb. specialize (A Hb).
    destruct (line_kind raw); cbn [snd new_number];
      now rewrite ?A, <- ?E.
Qed.

Lemma hunk_rows_number_from_the_header_witness :
  exists e,
    nth_error
      (DiffViewer
         (join_nl [str "+x"; str "@@ -4,2 +7,3 @@"; str " a"; str "-b";
                   str "@@ oops"; str "+c"; str " d"])) 6
    = Some e
    /\ old_number e = Some 6 /\ new_number e = Some 9.
Proof.
  destruct (hunk_rows_number_from_the_header
              (join_nl [str "+x"; str "@@ -4,2 +7,3 @@"; str " a"; str "-b";
                        str "@@ oops"; str "+c"; str " d"])
              [str "+x"] (str "@@ -4,2 +7,3 @@") (str "4") (str "7")
              [str " a"; str "-b"; str "@@ oops"; str "+c"; str " d"] []
              4 (str " d") eq_refl eq_refl eq_refl eq_refl eq_refl eq_refl)
    as (e & He & Ho & Hn).
  exists e. split; [exact He|]. split.
  - apply Ho. apply N.leb_le. reflexivity.
  - apply Hn. apply N.leb_le. reflexivity.
Defined.

(** ** X2: the columns of a hunk have no gap and no repeat *)

(** X2.  Read top to bottom over the rows of a hunk, the numbers of the old
    column are the old start, the next number, the next, ... without gap or
    repeat, one for each deletion or context line, as long as they stay at
    or below 2^53 = 9007199254740992; and the numbers of the new column are
    the new start and its successors, one for each addition or context line,
    under the same bound. *)
Theorem hunk_columns_count_up (patch : jsstring) (pre : list jsstring)
  (hdr o n : jsstring) (run post : list jsstring) :
  split_nl patch = pre ++ hdr :: run ++ post ->
  startsWith hdr (str "@@") = true ->
  hunk_match hdr = Some (o, n) ->
  forallb (fun l => negb (resets l)) run = true ->
  (decimal_value o + total old_step run <= 2 ^ 53 ->
   shown_old (rows_after (length pre) (length run) (DiffViewer patch))
   = count_from (decimal_value o) (N.to_nat (total old_step run)))
  /\ (decimal_value n + total new_step run <= 2 ^ 53 ->
      shown_new (rows_after (length pre) (length run) (DiffViewer patch))
      = count_from (decimal_value n) (N.to_nat (total new_step run))).
Proof.
  intros Hs Hh Hm Hrun. rewrite (hunk_rows _ _ _ _ _ Hs).
  unfold advance. rewrite (matched_header_body _ _ _ _ _ Hh Hm). cbn [fst].
  split; intros Hb.
  - assert (E : parseInt o = decimal_value o) by (apply to_double_exact; lia).
    rewrite shown_old_column by (try assumption; cbn [oldLine]; lia).
    cbn [oldLine]. now rewrite E.
  - assert (E : parseInt n = decimal_value n) by (apply to_double_exact; lia).
    rewrite shown_new_column by (try assumption; cbn [newLine]; lia).
    cbn [newLine]. now rewrite E.
Qed.

Lemma hunk_columns_count_up_witness :
  shown_old
    (rows_after 1 5
       (DiffViewer
          (join_nl [str "+x"; str "@@ -4,2 +7,3 @@"; str " a"; str "-b";
                    str "@@ oops"; str "+c"; str " d"])))
  = [4; 5; 6]
  /\ shown_new
       (rows_after 1 5
          (DiffViewer
             (join_nl [str "+x"; str "@@ -4,2 +7,3 @@"; str " a"; str "-b";
                       str "@@ oops"; str "+c"; str " d"])))
     = [7; 8; 9].
Proof.
  destruct (hunk_columns_count_up
              (join_nl [str "+x"; str "@@ -4,2 +7,3 @@"; str " a"; str "-b";
                        str "@@ oops"; str "+c"; str " d"])
              [str "+x"] (str "@@ -4,2 +7,3 @@") (str "4") (str "7")
              [str " a"; str "-b"; str "@@ oops"; str "+c"; str " d"] []
              eq_refl eq_refl eq_refl eq_refl) as [Ho Hn].
  split.
  - apply Ho. apply N.leb_le. reflexivity.
  - apply Hn. apply N.leb_le. reflexivity.
Defined.

(** ** X3: every content row of a hunk that starts at 1 or more can be
    picked *)

(** X3.  When the header of a hunk declares starts that are both at least 1,
    a click on any content row of the hunk picks a line: the new number of
    an addition or context row, the old number of a deletion row; that line
    is at least 1 and becomes the selected line, whatever was selected. *)
Theorem hunk_rows_can_be_picked (patch : jsstring) (pre : list jsstring)
  (hdr o n : jsstring) (run post : list jsstring) (k : nat)
  (raw : jsstring) :
  split_nl patch = pre ++ hdr :: run ++ post ->
  startsWith hdr (str "@@") = true ->
  hunk_match hdr = Some (o, n) ->
  1 <= parseInt o -> 1 <= parseInt n ->
  forallb (fun l => negb (resets l)) run = true ->
  nth_error run k = Some raw ->
  is_content raw = true ->
  exists e ln, nth_error (DiffViewer patch) (S (length pre + k)) = Some e
    /\ preferred_number e = Some ln
    /\ 1 <= ln
    /\ resolveCommentTarget e = Some ln
    /\ forall selected, onClick setSelectedLine e selected = Some ln.
Proof.
  intros Hs Hh Hm Ho Hn Hrun Hk Hc%is_content_true.
  pose proof (hunk_row _ _ _ _ _ _ _ _ _ Hs Hh Hm Hk) as R.
  rewrite body_content in R by assumption.
  destruct (after_no_reset_positive (firstn k run)
              {| oldLine := parseInt o; newLine := parseInt n |}
              (forallb_firstn _ _ k Hrun)) as [Po Pn].
  specialize (Po Ho). specialize (Pn Hn).
  assert (Hpos : forall x, 1 <= x -> (x =? 0) = false)
    by (intros; apply N.eqb_neq; lia).
  destruct (line_kind raw); cbn [snd] in R;
    eexists; eexists; (split; [exact R|]);
    unfold onClick;
    cbn [preferred_number new_number old_number resolveCommentTarget];
    rewrite Hpos by assumption; repeat split; assumption.
Qed.

Lemma hunk_rows_can_be_picked_witness :
  exists e ln,
    nth_error
      (DiffViewer
         (join_nl [str "@@ -4,2 +7,3 @@"; str " a"; str "-b"; str "+c"])) 2
    = Some e
    /\ preferred_number e = Some ln
    /\ 1 <= ln
    /\ resolveCommentTarget e = Some ln
    /\ forall selected, onClick setSelectedLine e selected = Some ln.
Proof.
  apply (hunk_rows_can_be_picked
           (join_nl [str "@@ -4,2 +7,3 @@"; str " a"; str "-b"; str "+c"])
           [] (str "@@ -4,2 +7,3 @@") (str "4") (str "7")
           [str " a"; str "-b"; str "+c"] [] 1 (str "-b")
           eq_refl eq_refl eq_refl); try reflexivity; vm_compute; discriminate.
Defined.

(** ** X4: what precedes a matched header does not matter *)

(** X4.  From a header line the pattern matches onwards, the rows of a patch
    are the rows of the patch cut at that header, shown on its own; only the
    React keys differ, by the number of lines cut off.  Nothing of the lines
    before the header (their counters, their text) reaches the rows after
    it. *)
Theorem rows_from_a_matched_header_on (patch : jsstring)
  (pre : list jsstring) (hdr : jsstring) (rest : list jsstring) :
  split_nl patch = pre ++ hdr :: rest ->
  resets hdr = true ->
  split_nl (join_nl (hdr :: rest)) = hdr :: rest
  /\ skipn (length pre) (DiffViewer patch)
     = map (rekey (length pre)) (DiffViewer (join_nl (hdr :: rest))).
Proof.
  intros Hs Hr.
  assert (Hj : split_nl (join_nl (hdr :: rest)) = hdr :: rest).
  { apply split_join_nl; [discriminate|].
    apply (Forall_app_r _ pre). rewrite <- Hs. apply split_nl_lf_free. }
  split; [exact Hj|].
  rewrite (DiffViewer_app _ _ _ Hs), DiffViewer_rows, Hj.
  rewrite <- (rows_from_length pre 0 init) at 1. rewrite skipn_length_app.
  rewrite (rows_from_reset hdr rest _ _ init Hr).
  rewrite <- (Nat.add_0_r (length pre)) at 1. apply rows_from_rekey.
Qed.

Lemma rows_from_a_matched_header_on_witness :
  skipn 2 (DiffViewer
             (join_nl [str " a"; str "+b"; str "@@ -4 +7 @@"; str "-c"]))
  = map (rekey 2) (DiffViewer (join_nl [str "@@ -4 +7 @@"; str "-c"])).
Proof.
  exact (proj2 (rows_from_a_matched_header_on
                  (join_nl [str " a"; str "+b"; str "@@ -4 +7 @@"; str "-c"])
                  [str " a"; str "+b"] (str "@@ -4 +7 @@") [str "-c"]
                  eq_refl eq_refl)).
Defined.

(** ** X5: a patch that ends with a line feed *)

(** X5.  Ending a patch with a line feed adds one row and changes no other:
    the row of the empty last line, a context row with an empty text and a
    blank sign, numbered in both columns with the counters reached at the
    end of the patch. *)
Theorem trailing_line_feed_adds_a_context_row (patch : jsstring) :
  DiffViewer (patch ++ [10])
  = DiffViewer patch
    ++ [DiffLine (length (split_nl patch)) ctx
          (Some (oldLine (after init (split_nl patch))))
          (Some (newLine (after init (split_nl patch))))
          (str " ") []].
Proof.
  rewrite !DiffViewer_rows, split_nl_snoc_lf, rows_from_app.
  now rewrite Nat.add_0_r.
Qed.

(** ** X6: no row shows a line feed *)

Lemma body_text_within (i : nat) (st : counters) (raw : jsstring)
  (c : char) :
  In c (display_text (snd (body i st raw))) -> In c raw.
Proof.
  destruct (startsWith raw (str "@@")) eqn:H.
  - now rewrite body_header.
  - rewrite body_content by assumption.
    destruct (line_kind raw); cbn [snd display_text]; auto;
      destruct raw; cbn [slice1 tl]; auto using in_cons.
Qed.

(** X6.  The text shown in a row is a piece of one line of the patch: it
    never holds a line feed, and neither does the line the row was built
    from. *)
Theorem rows_show_no_line_feed (patch : jsstring) :
  Forall (fun e => ~ In 10 (display_text e) /\ ~ In 10 (source_line e))
         (DiffViewer patch).
Proof.
  rewrite DiffViewer_rows. generalize 0%nat, init.
  induction (split_nl_lf_free patch) as [|raw rest Hraw Hrest IH];
    intros i st; cbn [rows_from]; constructor; [|apply IH].
  split; [|now rewrite body_source].
  intros Hin. now apply Hraw, (body_text_within i st).
Qed.

(** ** X7: a header written in decimal is read back *)

(** X7.  A header line that writes its old start [a] and new start [b] as
    decimal numerals, with or without counts and whatever text follows the
    closing [@@], leaves the counters at the doubles nearest to [a] and [b]:
    at exactly [a] and [b] when these are at most 2^53 = 9007199254740992.
    The counts play no part. *)
Theorem header_line_sets_its_starts (patch : jsstring)
  (pre post : list jsstring) (a b : N) (ca cb : option N)
  (tail : jsstring) :
  split_nl patch = pre ++ header_line a ca b cb tail :: post ->
  nth_error (DiffViewer patch) (length pre)
  = Some (HunkHeader (length pre) (header_line a ca b cb tail))
  /\ after init (pre ++ [header_line a ca b cb tail])
     = {| oldLine := to_double a; newLine := to_double b |}
  /\ (a <= 2 ^ 53 -> b <= 2 ^ 53 ->
      after init (pre ++ [header_line a ca b cb tail])
      = {| oldLine := a; newLine := b |}).
Proof.
  intros Hs.
  destruct (well_formed_header_match _ _ _
              (header_line_well_formed a ca b cb tail)) as [Hh Hm].
  pose proof (matched_header_body) as Hb.
  assert (Ha : after init (pre ++ [header_line a ca b cb tail])
               = {| oldLine := to_double a; newLine := to_double b |}).
  { rewrite after_snoc. unfold advance. rewrite (Hb _ _ _ _ _ Hh Hm).
    now rewrite !parseInt_numeral. }
  split; [|split].
  - rewrite (row_at _ _ _ _ Hs). unfold row_of.
    now rewrite (Hb _ _ _ _ _ Hh Hm).
  - exact Ha.
  - intros La Lb. rewrite Ha. now rewrite !to_double_exact by assumption.
Qed.

Lemma header_line_sets_its_starts_witness :
  header_line 120 (Some 8) 1034 None (str " int main()")
  = str "@@ -120,8 +1034 @@ int main()"
  /\ after init ([str " a"] ++ [str "@@ -120,8 +1034 @@ int main()"])
     = {| oldLine := 120; newLine := 1034 |}.
Proof.
  split; [reflexivity|].
  destruct (header_line_sets_its_starts
              (join_nl [str " a"; str "@@ -120,8 +1034 @@ int main()";
                        str "+b"])
              [str " a"] [str "+b"] 120 1034 (Some 8) None
              (str " int main()") eq_refl) as (_ & _ & H).
  apply H; apply N.leb_le; reflexivity.
Defined.

(** ** X8: where the pattern is found in a line *)

(** X8.  [raw.match(pattern)] succeeds with groups [o] and [n] exactly when
    the pattern can be read with these groups from some position of the
    line and from no earlier position; the groups are then non-empty runs of
    decimal digits. *)
Theorem pattern_is_found_leftmost (s o n : jsstring) :
  (hunk_match s = Some (o, n)
   <-> exists k, hunk_shape (skipn k s) o n
         /\ forall j o' n', (j < k)%nat -> ~ hunk_shape (skipn j s) o' n')
  /\ (hunk_match s = Some (o, n) -> digits o /\ digits n).
Proof.
  assert (Hiff : hunk_match s = Some (o, n)
            <-> exists k, hunk_shape (skipn k s) o n
                  /\ forall j o' n', (j < k)%nat ->
                       ~ hunk_shape (skipn j s) o' n').
  { rewrite hunk_match_search. split; intros (k & Hk & Hbefore); exists k.
    - split; [now apply hunk_at_iff|].
      intros j o' n' Hj Hshape%hunk_at_iff.
      rewrite (Hbefore j Hj) in Hshape. discriminate.
    - split; [now apply hunk_at_iff|].
      intros j Hj. destruct (hunk_at (skipn j s)) as [[o' n']|] eqn:E;
        [|reflexivity].
      exfalso. apply (Hbefore j o' n' Hj). now apply hunk_at_iff. }
  split; [exact Hiff|].
  intros (k & Hk & _)%Hiff.
  destruct Hk as (w1 & oc & w2 & nc & w3 & tail & _ & _ & _ & Ho & Hn & _).
  now split.
Qed.

Lemma pattern_is_found_leftmost_witness :
  digits (str "3") /\ digits (str "4").
Proof.
  exact (proj2 (pattern_is_found_leftmost
                  (str "@@x@@ -3 +4 @@ -5 +6 @@") (str "3") (str "4"))
               eq_refl).
Defined.

(** ** White space *)

Lemma trimStart_blank (s : jsstring) :
  trimStart s = [] <-> forallb is_space s = true.
Proof.
  induction s as [|c s IH]; cbn [trimStart forallb]; [tauto|].
  destruct (is_space c); cbn [andb]; [exact IH|].
  split; discriminate.
Qed.

Lemma trimStart_split (s : jsstring) :
  exists lead, s = lead ++ trimStart s /\ forallb is_space lead = true.
Proof.
  induction s as [|c s (lead & E & Hl)]; [now exists []|].
  cbn [trimStart]. destruct (is_space c) eqn:Hc.
  - exists (c :: lead). cbn [forallb app]. rewrite Hc, Hl. now rewrite <- E.
  - now exists [].
Qed.

Lemma trimStart_head (s : jsstring) (c : char) (t : jsstring) :
  trimStart s = c :: t -> is_space c = false.
Proof.
  induction s as [|a s IH]; cbn [trimStart]; [discriminate|].
  destruct (is_space a) eqn:Ha; [exact IH|].
  intros E. inversion E; subst. exact Ha.
Qed.

Lemma trimStart_fixed (c : char) (t : jsstring) :
  is_space c = false -> trimStart (c :: t) = c :: t.
Proof. intros H. cbn [trimStart]. now rewrite H. Qed.

Lemma forallb_rev {A : Type} (f : A -> bool) (l : list A) :
  forallb f (rev l) = forallb f l.
Proof.
  induction l as [|a l IH]; [reflexivity|].
  cbn [rev forallb]. rewrite forallb_app, IH. cbn [forallb].
  now rewrite andb_true_r, andb_comm.
Qed.

Lemma trimEnd_split (s : jsstring) :
  exists trail, s = trimEnd s ++ trail /\ forallb is_space trail = true.
Proof.
  destruct (trimStart_split (rev s)) as (lead & E & Hl).
  exists (rev lead). split; [|now rewrite forallb_rev].
  unfold trimEnd. rewrite <- rev_app_distr, <- E. now rewrite rev_involutive.
Qed.

Lemma trimEnd_last (s : jsstring) :
  trimEnd s <> [] -> is_space (last (trimEnd s) 0) = false.
Proof.
  unfold trimEnd. destruct (trimStart (rev s)) as [|c t] eqn:E;
    [contradiction|]. intros _.
  cbn [rev]. rewrite last_last. exact (trimStart_head _ _ _ E).
Qed.

(** [trimEnd] leaves the head of a string that begins with something else
    than white space. *)
Lemma trimEnd_keeps_head (c : char) (t : jsstring) :
  is_space c = false -> exists t', trimEnd (c :: t) = c :: t'.
Proof.
  intros Hc. destruct (trimEnd_split (c :: t)) as (trail & E & Ht).
  destruct (trimEnd (c :: t)) as [|c' t'] eqn:Et.
  - simpl in E. subst trail. cbn [forallb] in Ht. now rewrite Hc in Ht.
  - inversion E; subst. now exists t'.
Qed.

(** What [trim] gives: the string between leading and trailing white space;
    when it is not empty it begins and ends with something else. *)
Lemma trim_spec (s : jsstring) :
  (exists lead trail,
     s = lead ++ trim s ++ trail
     /\ forallb is_space lead = true /\ forallb is_space trail = true)
  /\ (trim s <> [] ->
      is_space (hd 0 (trim s)) = false
      /\ is_space (last (trim s) 0) = false).
Proof.
  unfold trim. split.
  - destruct (trimStart_split s) as (lead & E & Hl).
    destruct (trimEnd_split (trimStart s)) as (trail & E' & Ht).
    exists lead, trail. split; [|now split].
    now rewrite <- E', <- E.
  - intros Hne. split; [|now apply trimEnd_last].
    destruct (trimStart s) as [|c t] eqn:E; [now contradiction Hne|].
    destruct (trimEnd_keeps_head c t (trimStart_head _ _ _ E)) as (t' & ->).
    exact (trimStart_head _ _ _ E).
Qed.

Lemma trim_blank (s : jsstring) :
  trim s = [] <-> forallb is_space s = true.
Proof.
  split.
  - intros E. destruct (trim_spec s) as [(lead & trail & Es & Hl & Ht) _].
    rewrite E in Es. cbn [app] in Es.
    rewrite Es, forallb_app, Hl, Ht. reflexivity.
  - intros H. unfold trim.
    now rewrite (proj2 (trimStart_blank s) H).
Qed.

Lemma trimEnd_fixed (s : jsstring) :
  s <> [] -> is_space (last s 0) = false -> trimEnd s = s.
Proof.
  intros Hne Hl. unfold trimEnd.
  destruct (exists_last Hne) as (t & c & ->).
  rewrite last_last in Hl. rewrite rev_app_distr. cbn [rev app].
  rewrite trimStart_fixed by assumption.
  cbn [rev]. now rewrite rev_involutive.
Qed.

Lemma trim_idempotent (s : jsstring) : trim (trim s) = trim s.
Proof.
  destruct (trim s) as [|c t] eqn:E; [reflexivity|].
  destruct (trim_spec s) as [_ Hends]. rewrite E in Hends.
  destruct (Hends ltac:(discriminate)) as [Hh Hl]. cbn [hd] in Hh.
  unfold trim at 1. rewrite trimStart_fixed by assumption.
  now apply trimEnd_fixed.
Qed.

(** ** X9: the overall feedback that is posted *)

(** X9.  The overall-feedback form posts nothing exactly when the text is
    empty or made of white space only.  Otherwise the message it posts is
    the text without its leading and trailing white space: it is not empty,
    it neither begins nor ends with white space, and posting that message
    again would post it unchanged. *)
Theorem overall_feedback_is_posted_trimmed (text : jsstring) :
  (overall_submit text = None <-> forallb is_space text = true)
  /\ forall b, overall_submit text = Some b ->
       ob_message b <> []
       /\ is_space (hd 0 (ob_message b)) = false
       /\ is_space (last (ob_message b) 0) = false
       /\ (exists lead trail,
             text = lead ++ ob_message b ++ trail
             /\ forallb is_space lead = true
             /\ forallb is_space trail = true)
       /\ overall_submit (ob_message b) = Some b.
Proof.
  unfold overall_submit. split.
  - rewrite <- trim_blank. destruct (trim text); split; congruence.
  - intros b Hb. pose proof (trim_idempotent text) as Hi.
    destruct (trim_spec text) as [Hsplit Hends].
    destruct (trim text) as [|c t] eqn:E; [discriminate|].
    injection Hb as <-. cbn [ob_message].
    destruct (Hends ltac:(discriminate)) as [Hh Hl].
    split; [discriminate|]. split; [exact Hh|]. split; [exact Hl|].
    split; [exact Hsplit|]. now rewrite Hi.
Qed.

Lemma overall_feedback_is_posted_trimmed_witness :
  option_map ob_message
    (overall_submit ([32; 9] ++ str "well  done" ++ [10; 32]))
  = Some (str "well  done")
  /\ is_space (last (str "well  done") 0) = false.
Proof.
  destruct (overall_feedback_is_posted_trimmed
              ([32; 9] ++ str "well  done" ++ [10; 32])) as [_ H].
  destruct (H _ eq_refl) as (_ & _ & Hl & _).
  split; [reflexivity | exact Hl].
Defined.

Lemma inline_submit_some
  (filePath line message : jsstring) (b : inline_body) :
  inline_submit filePath line message = Some b ->
  ib_file_path b = filePath
  /\ ib_message b = message
  /\ (ib_line b = line_null <-> line = []).
Proof.
  unfold inline_submit. destruct (trim message); [discriminate|].
  intros Hb. injection Hb as <-. cbn [ib_file_path ib_message ib_line].
  destruct line; repeat split; congruence.
Qed.

(** ** X10: the inline comment that is posted *)



(** ** Picking lines in a file block *)

Lemma resolved_target (e : element) (ln : N) :
  resolveCommentTarget e = Some ln ->
  preferred_number e = Some ln /\ 1 <= ln.
Proof.
  destruct e as [i raw|i ty o n sign content]; [discriminate|].
  cbn [resolveCommentTarget preferred_number new_number old_number].
  destruct n as [n|]; [|destruct o as [o|]].
  - destruct (N.eqb_spec n 0); [discriminate|].
    intros E. injection E as <-. split; [reflexivity | lia].
  - destruct (N.eqb_spec o 0); [discriminate|].
    intros E. injection E as <-. split; [reflexivity | lia].
  - discriminate.
Qed.

Lemma same_line_refl (a : option N) : same_line a a = true.
Proof. destruct a; [apply N.eqb_refl | reflexivity]. Qed.

Lemma same_line_true (a b : option N) : same_line a b = true -> a = b.
Proof.
  destruct a as [x|], b as [y|]; cbn [same_line]; intros H;
    try discriminate H; [|reflexivity].
  apply N.eqb_eq in H. now subst.
Qed.

Lemma pick_same (e : element) (st : block_state) :
  resolveCommentTarget e = None
  \/ resolveCommentTarget e = selectedLine st ->
  pick e st = st.
Proof.
  intros H. unfold pick, onClick, setSelectedLine.
  assert (E : match resolveCommentTarget e with
              | Some ln => Some ln
              | None => selectedLine st
              end = selectedLine st).
  { destruct H as [-> | ->]; [reflexivity|]. now destruct (selectedLine st). }
  rewrite E. unfold prefill_effect. rewrite same_line_refl.
  now destruct st.
Qed.

Lemma pick_fresh (e : element) (st : block_state) (ln : N) :
  resolveCommentTarget e = Some ln ->
  selectedLine st <> Some ln ->
  pick e st = {| selectedLine := Some ln;
                 line_field := String_of_number ln;
                 message_field := message_field st |}.
Proof.
  intros He Hne. unfold pick, onClick, setSelectedLine. rewrite He.
  unfold prefill_effect.
  destruct (same_line (selectedLine st) (Some ln)) eqn:E; [|reflexivity].
  now apply same_line_true in E.
Qed.

Lemma picks_snoc (clicked : list element) (e : element) (st : block_state) :
  picks (clicked ++ [e]) st = pick e (picks clicked st).
Proof. unfold picks. now rewrite fold_left_app. Qed.

(** ** X11: the selected line and the Line field after clicks *)

(** X11.  In a freshly mounted file block, after any sequence of clicks on
    rows: either no clicked row had a line to pick, nothing is selected and
    the Line field is still empty; or the selected line is the preferred
    number of one of the clicked rows, it is at least 1 (never 0), and the
    Line field shows what [String] prints for it: below
    2^53 = 9007199254740992 its decimal numeral, which stands for that
    line. *)
Theorem clicks_keep_selection_and_field_in_step (clicked : list element) :
  message_field (picks clicked mounted) = []
  /\ match selectedLine (picks clicked mounted) with
     | None =>
         line_field (picks clicked mounted) = []
         /\ Forall (fun e => resolveCommentTarget e = None) clicked
     | Some ln =>
         1 <= ln
         /\ line_field (picks clicked mounted) = String_of_number ln
         /\ (ln < 2 ^ 53 ->
             line_field (picks clicked mounted) = decimal_numeral ln
             /\ decimal_value (line_field (picks clicked mounted)) = ln)
         /\ exists e, In e clicked /\ preferred_number e = Some ln
     end.
Proof.
  induction clicked as [|e clicked IH] using rev_ind.
  - repeat split. constructor.
  - rewrite picks_snoc. destruct IH as [Hm IH].
    destruct (resolveCommentTarget e) as [ln|] eqn:He.
    + destruct (resolved_target _ _ He) as [Hp Hge].
      assert (Hpick : pick e (picks clicked mounted)
                      = {| selectedLine := Some ln;
                           line_field := String_of_number ln;
                           message_field := [] |}).
      { destruct (selectedLine (picks clicked mounted)) as [ln'|] eqn:Hs.
        - destruct (N.eq_dec ln' ln) as [->|Hne].
          + rewrite pick_same by (right; congruence).
            destruct IH as (_ & Hl & _).
            destruct (picks clicked mounted); cbn in *; congruence.
          + rewrite (pick_fresh _ _ ln He) by congruence. now rewrite Hm.
        - rewrite (pick_fresh _ _ ln He) by congruence. now rewrite Hm. }
      rewrite Hpick. cbn [selectedLine line_field message_field].
      split; [reflexivity|]. split; [exact Hge|]. split; [reflexivity|].
      split.
      * intros Hlt. rewrite String_of_number_small by assumption.
        split; [reflexivity | apply decimal_value_numeral].
      * exists e. split; [apply in_or_app; right; now left | exact Hp].
    + rewrite pick_same by now left. split; [exact Hm|].
      destruct (selectedLine (picks clicked mounted)) as [ln'|].
      * destruct IH as (H1 & H2 & H3 & e' & Hin & Hp).
        split; [exact H1|]. split; [exact H2|]. split; [exact H3|].
        exists e'. split; [apply in_or_app; now left | exact Hp].
      * destruct IH as [H1 H2]. split; [exact H1|].
        apply Forall_app. split; [exact H2 | now constructor].
Qed.

Lemma clicks_keep_selection_and_field_in_step_witness :
  selectedLine
    (picks [DiffLine 3 add None (Some 0) (str "+") (str "x");
            DiffLine 4 add None (Some 8) (str "+") (str "y")] mounted)
  = Some 8
  /\ decimal_value
       (line_field
          (picks [DiffLine 3 add None (Some 0) (str "+") (str "x");
                  DiffLine 4 add None (Some 8) (str "+") (str "y")] mounted))
     = 8.
Proof.
  split; [reflexivity|].
  exact (proj2
           (proj1 (proj2 (proj2 (proj2
              (clicks_keep_selection_and_field_in_step
                 [DiffLine 3 add None (Some 0) (str "+") (str "x");
                  DiffLine 4 add None (Some 8) (str "+") (str "y")]))))
              eq_refl)).
Defined.

(** ** X12: clicking the selected line again *)

(** X12.  A click on a row whose line is already the selected one changes
    nothing in the block: the Line field is not filled again.  So a text the
    reviewer typed in the field survives, and after a comment has been
    posted (which empties the field) the field stays empty, and the next
    comment typed is posted with [line: null]. *)
Theorem picking_the_selected_line_again
  (e : element) (ln : N) (st : block_state) (text : jsstring) :
  resolveCommentTarget e = Some ln ->
  pick e (pick e st) = pick e st
  /\ pick e (type_line text (pick e st)) = type_line text (pick e st)
  /\ pick e (submitted (pick e st)) = submitted (pick e st)
  /\ forall filePath b,
       inline_submit filePath
         (line_field (pick e (submitted (pick e st))))
         (message_field (type_message text (pick e (submitted (pick e st)))))
       = Some b ->
       ib_line b = line_null.
Proof.
  intros He.
  assert (Hsel : selectedLine (pick e st) = Some ln).
  { unfold pick, onClick, setSelectedLine. now rewrite He. }
  assert (H3 : pick e (submitted (pick e st)) = submitted (pick e st))
    by (apply pick_same; right; cbn [submitted selectedLine]; congruence).
  split; [apply pick_same; right; congruence|].
  split; [apply pick_same; right; cbn [type_line selectedLine]; congruence|].
  split; [exact H3|].
  intros filePath b. rewrite H3. cbn [submitted line_field].
  intros Hb.
  destruct (inline_submit_some filePath [] _ b Hb)
    as (_ & _ & Hl). now apply Hl.
Qed.

Lemma picking_the_selected_line_again_witness :
  resolveCommentTarget (DiffLine 3 add None (Some 8) (str "+") (str "x"))
  = Some 8
  /\ pick (DiffLine 3 add None (Some 8) (str "+") (str "x"))
       (submitted
          (pick (DiffLine 3 add None (Some 8) (str "+") (str "x")) mounted))
     = {| selectedLine := Some 8; line_field := []; message_field := [] |}.
Proof.
  split; [reflexivity|].
  exact (proj1 (proj2 (proj2
           (picking_the_selected_line_again
              (DiffLine 3 add None (Some 8) (str "+") (str "x")) 8
              mounted [] eq_refl)))).
Defined.

(** ** X13: from a click to the posted comment *)



(** ** X14: the comments listed under the files *)

Lemma strict_eq_true (a b : jsstring) : strict_eq a b = true <-> a = b.
Proof.
  revert b. induction a as [|x a IH]; intros [|y b]; cbn [strict_eq].
  - split; reflexivity.
  - split; discriminate.
  - split; discriminate.
  - rewrite andb_true_iff, N.eqb_eq, IH. split.
    + now intros [-> ->].
    + intros E. now inversion E.
Qed.

Lemma filter_either {A : Type} (p q : A -> bool) (l : list A) :
  (forall x, p x = true -> q x = true -> False) ->
  length (filter (fun x => p x || q x) l)
  = (length (filter p l) + length (filter q l))%nat.
Proof.
  intros Hpq. induction l as [|x l IH]; [reflexivity|].
  cbn [filter]. specialize (Hpq x).
  destruct (p x) eqn:Hp, (q x) eqn:Hq; cbn [orb length]; rewrite IH;
    first [lia | exfalso; now apply Hpq].
Qed.

Section Comments_under_files.

Variables (comment file : Type).
Variable file_path : comment -> jsstring.
Variable filename : file -> jsstring.

(** X14.  When the files of the diff have distinct names, the blocks list
    each comment at most once: all blocks together list as many comments as
    there are comments whose [file_path] is the name of a file of the diff,
    hence no more than there are comments; each block lists comments of its
    own file only; and a comment on a file that is not in the diff is listed
    nowhere. *)
Theorem comments_are_listed_once (diffFiles : list file)
  (inlineComments : list comment) :
  NoDup (map filename diffFiles) ->
  length (concat (blocks_comments comment file file_path filename
                    diffFiles inlineComments))
  = length (filter (fun c =>
                      existsb (fun f => strict_eq (file_path c) (filename f))
                              diffFiles)
                   inlineComments)
  /\ (length (concat (blocks_comments comment file file_path filename
                        diffFiles inlineComments))
      <= length inlineComments)%nat
  /\ (forall f c,
        In c (comments_of comment file file_path filename inlineComments f) ->
        In c inlineComments /\ file_path c = filename f)
  /\ (forall c,
        ~ In (file_path c) (map filename diffFiles) ->
        ~ In c (concat (blocks_comments comment file file_path filename
                          diffFiles inlineComments))).
Proof.
  intros Hnd.
  assert (Hlen : length (concat (blocks_comments comment file file_path
                                   filename diffFiles inlineComments))
                 = length (filter
                             (fun c =>
                                existsb (fun f => strict_eq (file_path c)
                                                    (filename f))
                                        diffFiles)
                             inlineComments)).
  { induction diffFiles as [|f fs IH].
    - cbn. induction inlineComments; auto.
    - inversion Hnd as [|? ? Hnotin Hnd']; subst.
      unfold blocks_comments in *. cbn [map concat existsb].
      rewrite length_app, (IH Hnd'). unfold comments_of.
      symmetry.
      apply (filter_either
               (fun c => strict_eq (file_path c) (filename f))
               (fun c => existsb (fun f' => strict_eq (file_path c)
                                              (filename f')) fs)).
      intros c Hp Hq. apply Hnotin.
      apply existsb_exists in Hq as (f' & Hin & Hf').
      apply strict_eq_true in Hp, Hf'. rewrite <- Hp, Hf'.
      now apply in_map. }
  split; [exact Hlen|]. split; [rewrite Hlen; apply filter_length_le|].
  split.
  - intros f c [Hin Hp]%filter_In. split; [exact Hin|].
    now apply strict_eq_true.
  - intros c Hnot Hin. apply Hnot.
    apply in_concat in Hin as (block & Hblock & Hc).
    unfold blocks_comments in Hblock.
    apply in_map_iff in Hblock as (f & <- & Hf).
    apply filter_In in Hc as [_ Hp]. apply strict_eq_true in Hp.
    rewrite Hp. now apply in_map.
Qed.

End Comments_under_files.

Lemma comments_are_listed_once_witness :
  NoDup (map (fun f : jsstring => f) [str "a.c"; str "b.c"])
  /\ blocks_comments (jsstring * N) jsstring fst (fun f => f)
       [str "a.c"; str "b.c"]
       [(str "b.c", 1); (str "z.c", 2); (str "a.c", 3); (str "b.c", 4)]
     = [[(str "a.c", 3)]; [(str "b.c", 1); (str "b.c", 4)]]
  /\ (length
        (concat
           (blocks_comments (jsstring * N) jsstring fst (fun f => f)
              [str "a.c"; str "b.c"]
              [(str "b.c", 1%N); (str "z.c", 2%N); (str "a.c", 3%N);
               (str "b.c", 4%N)]))
      <= 4)%nat.
Proof.
  assert (Hnd : NoDup (map (fun f : jsstring => f) [str "a.c"; str "b.c"])).
  { repeat constructor; cbn; intuition discriminate. }
  split; [exact Hnd|]. split; [reflexivity|].
  exact (proj1 (proj2
           (comments_are_listed_once (jsstring * N) jsstring fst
              (fun f => f) [str "a.c"; str "b.c"]
              [(str "b.c", 1); (str "z.c", 2); (str "a.c", 3);
               (str "b.c", 4)] Hnd))).
Defined.

(** ** The countdown *)

Lemma timer_components (diff : Z) :
  (0 < diff)%Z ->
  (0 <= timer_days diff
   /\ 0 <= timer_hours diff < 24
   /\ 0 <= timer_minutes diff < 60
   /\ 0 <= timer_seconds diff < 60
   /\ diff / 1000
      = ((timer_days diff * 24 + timer_hours diff) * 60
         + timer_minutes diff) * 60 + timer_seconds diff
   /\ diff / (1000 * 60)
      = (timer_days diff * 24 + timer_hours diff) * 60 + timer_minutes diff
   /\ diff / (1000 * 60 * 60) = timer_days diff * 24 + timer_hours diff)%Z.
Proof.
  intros Hd. unfold timer_days, timer_hours, timer_minutes, timer_seconds.
  rewrite !Z.rem_mod_nonneg by lia.
  change (1000 * 60 * 60 * 24)%Z with 86400000%Z.
  change (1000 * 60 * 60)%Z with 3600000%Z.
  change (1000 * 60)%Z with 60000%Z.
  Z.div_mod_to_equations. lia.
Qed.

(** X15.  While time is left ([diff > 0]) the countdown splits it into whole
    days, hours below 24, minutes below 60 and seconds below 60 that add up
    to the time left rounded down to the second: nothing is lost but the
    milliseconds. *)
Theorem countdown_components_add_up (diff : Z) :
  (0 < diff)%Z ->
  (0 <= timer_days diff
   /\ 0 <= timer_hours diff < 24
   /\ 0 <= timer_minutes diff < 60
   /\ 0 <= timer_seconds diff < 60
   /\ diff / 1000
      = ((timer_days diff * 24 + timer_hours diff) * 60
         + timer_minutes diff) * 60 + timer_seconds diff)%Z.
Proof.
  intros Hd. destruct (timer_components diff Hd) as (H1 & H2 & H3 & H4 & H5 & _).
  repeat split; try apply H2; try apply H3; try apply H4; assumption.
Qed.

Lemma countdown_components_add_up_witness :
  (timer_days 93784005 = 1 /\ timer_hours 93784005 = 2
   /\ timer_minutes 93784005 = 3 /\ timer_seconds 93784005 = 4
   /\ 0 <= timer_hours 93784005 < 24)%Z.
Proof.
  repeat split; try reflexivity;
    apply (countdown_components_add_up 93784005 eq_refl).
Defined.

(** X16.  Once the deadline is reached ([diff <= 0]) the countdown shows
    "Time expired" for a started assessment and "Start deadline passed"
    otherwise.  Before that it shows the components separated by blanks,
    each unit exactly when the time left is at least one such unit: days
    from 86 400 000 ms, hours from 3 600 000 ms, minutes from 60 000 ms, and
    the seconds always, last. *)
Theorem countdown_shows_the_units_that_matter (started : bool) (diff : Z) :
  ((diff <= 0)%Z ->
   updateTimer started diff
   = if started then str "Time expired" else str "Start deadline passed")
  /\ ((0 < diff)%Z ->
      updateTimer started diff
      = join_with (str " ")
          ((if (86400000 <=? diff)%Z
            then [unit_text (timer_days diff) "d"] else [])
           ++ (if (3600000 <=? diff)%Z
               then [unit_text (timer_hours diff) "h"] else [])
           ++ (if (60000 <=? diff)%Z
               then [unit_text (timer_minutes diff) "m"] else [])
           ++ [unit_text (timer_seconds diff) "s"])).
Proof.
  unfold updateTimer. split; intros Hd.
  - now rewrite (proj2 (Z.leb_le diff 0) Hd).
  - rewrite (proj2 (Z.leb_gt diff 0) Hd). unfold timer_parts. cbv zeta.
    destruct (timer_components diff Hd) as (H1 & H2 & H3 & H4 & H5 & H6 & H7).
    assert (Ed : (0 <? timer_days diff)%Z = (86400000 <=? diff)%Z).
    { unfold timer_days in *.
      change (1000 * 60 * 60 * 24)%Z with 86400000%Z in *.
      destruct (Z.ltb_spec 0 (diff / 86400000)),
               (Z.leb_spec 86400000 diff); try reflexivity; exfalso;
        Z.div_mod_to_equations; lia. }
    assert (Eh : ((0 <? timer_hours diff) || (0 <? timer_days diff))%Z
                 = (3600000 <=? diff)%Z).
    { change (1000 * 60 * 60)%Z with 3600000%Z in H7.
      destruct (Z.ltb_spec 0 (timer_hours diff)),
               (Z.ltb_spec 0 (timer_days diff)),
               (Z.leb_spec 3600000 diff); try reflexivity; exfalso;
        Z.div_mod_to_equations; lia. }
    assert (Em : ((0 <? timer_minutes diff) || (0 <? timer_hours diff)
                  || (0 <? timer_days diff))%Z
                 = (60000 <=? diff)%Z).
    { change (1000 * 60)%Z with 60000%Z in H6.
      destruct (Z.ltb_spec 0 (timer_minutes diff)),
               (Z.ltb_spec 0 (timer_hours diff)),
               (Z.ltb_spec 0 (timer_days diff)),
               (Z.leb_spec 60000 diff); try reflexivity; exfalso;
        Z.div_mod_to_equations; lia. }
    now rewrite Em, Eh, Ed.
Qed.

Lemma countdown_shows_the_units_that_matter_witness :
  updateTimer true 93784005 = str "1d 2h 3m 4s"
  /\ updateTimer true 3600000 = str "1h 0m 0s"
  /\ updateTimer false 59999 = str "59s"
  /\ updateTimer false 0 = str "Start deadline passed".
Proof.
  destruct (countdown_shows_the_units_that_matter true 93784005) as [_ H1].
  destruct (countdown_shows_the_units_that_matter true 3600000) as [_ H2].
  destruct (countdown_shows_the_units_that_matter false 59999) as [_ H3].
  destruct (countdown_shows_the_units_that_matter false 0) as [H4 _].
  split; [exact (H1 eq_refl)|]. split; [exact (H2 eq_refl)|].
  split; [exact (H3 eq_refl)|]. apply H4. discriminate.
Defined.

(** ** X17: the tooltip of a row and what the click does *)

Lemma body_title (i : nat) (st : counters) (raw : jsstring) :
  let e := snd (body i st raw) in
  match preferred_number e with
  | Some p =>
      row_title e = Some (str "Comment on L" ++ String_of_number p)
      /\ (resolveCommentTarget e = Some p
          \/ (p = 0 /\ resolveCommentTarget e = None))
  | None => row_title e = None /\ is_header e = true
  end.
Proof.
  destruct (startsWith raw (str "@@")) eqn:H.
  - rewrite body_header by assumption. now split.
  - rewrite body_content by assumption.
    destruct (line_kind raw);
      cbn [snd preferred_number new_number old_number row_title
           resolveCommentTarget];
      (split; [reflexivity|]);
      match goal with
      | |- context [?x =? 0] => destruct (N.eqb_spec x 0); auto
      end.
Qed.

(** X17.  Every content row has a tooltip, "Comment on L" followed by what
    [String] prints for its preferred number (new number, else old number),
    and a header row has none.  The click picks exactly the line the tooltip
    names, except on the rows whose preferred number is 0: there the tooltip
    reads "Comment on L0" and the click picks nothing. *)
Theorem tooltip_names_the_picked_line (patch : jsstring) :
  Forall (fun e =>
            match preferred_number e with
            | Some p =>
                row_title e = Some (str "Comment on L" ++ String_of_number p)
                /\ (resolveCommentTarget e = Some p
                    \/ (p = 0 /\ resolveCommentTarget e = None))
            | None => row_title e = None /\ is_header e = true
            end)
         (DiffViewer patch).
Proof.
  rewrite DiffViewer_rows. apply rows_from_Forall. intros i st raw.
  apply body_title.
Qed.

(** ** X18: the sign cell tells the kind of the row *)

Lemma body_sign (i : nat) (st : counters) (raw : jsstring) :
  let e := snd (body i st raw) in
  match row_kind e with
  | addition => sign_cell e = Some (str "+")
  | deletion => sign_cell e = Some (str "-")
  | context =>
      sign_cell e = Some (first_or_blank (display_text e))
      /\ sign_cell e <> Some (str "+") /\ sign_cell e <> Some (str "-")
  | hunk_header => sign_cell e = None
  end.
Proof.
  destruct (startsWith raw (str "@@")) eqn:H.
  - now rewrite body_header.
  - rewrite body_content by assumption. unfold line_kind.
    destruct (startsWith raw (str "+")) eqn:Hp.
    + apply startsWith_one in Hp. cbn [snd row_kind sign_cell].
      now rewrite Hp.
    + destruct (startsWith raw (str "-")) eqn:Hm.
      * apply startsWith_one in Hm. cbn [snd row_kind sign_cell].
        now rewrite Hm.
      * cbn [snd row_kind sign_cell display_text].
        split; [reflexivity|].
        destruct raw as [|c t]; [split; discriminate|].
        cbn [startsWith str map list_ascii_of_string] in Hp, Hm.
        rewrite andb_true_r in Hp, Hm.
        apply N.eqb_neq in Hp, Hm. cbn [first_or_blank].
        split; intros E; inversion E; subst; [now apply Hp | now apply Hm].
Qed.

(** X18.  The sign cell shows [+] on addition rows and [-] on deletion rows,
    and on no other row; on a context row it shows the first character of
    the line (which the text of the row shows again), a blank when the line
    is empty; a header row has no sign cell. *)
Theorem sign_cell_tells_the_kind (patch : jsstring) :
  Forall (fun e =>
            match row_kind e with
            | addition => sign_cell e = Some (str "+")
            | deletion => sign_cell e = Some (str "-")
            | context =>
                sign_cell e = Some (first_or_blank (display_text e))
                /\ sign_cell e <> Some (str "+")
                /\ sign_cell e <> Some (str "-")
            | hunk_header => sign_cell e = None
            end)
         (DiffViewer patch).
Proof.
  rewrite DiffViewer_rows. apply rows_from_Forall. intros i st raw.
  apply body_sign.
Qed.
